(** * Retargeting Mixamo animations onto VRM avatars

    A shallow embedding of [retargetAnimation], the one function of the
    library with algorithmic content, together with the parts of three.js
    and three-vrm that it calls, and the properties of the specification
    settled against it.

    Numbers.  A JavaScript number is an exact rational or [NaN] here:
    rounding (binary64 arithmetic, [Float32Array] storage), signed zeros
    and the infinities are left out.  [NaN] is kept because the code makes
    it without any rounding, by reading past the end of an array.

    State.  The retargeter writes into the value arrays of the clip it is
    given, prints to the console, and reuses two scratch quaternions from
    one track of the clip to the next.  All three are explicit: the
    function returns, with the clip, the lines printed and the asset as
    the call leaves it, and the scratch quaternions are threaded through
    the loop over the tracks.  The tracks of a clip and the clips of an
    asset are taken to be distinct objects.

    Objects as maps.  The bone map is an object literal read with
    [boneMap[name]]: the look-up sees the properties of the object itself,
    which are a finite map whose values may be [undefined], and, for a
    name that is none of them, the members that every object literal
    inherits from [Object.prototype].

    Exceptions.  The one operation of the body that can throw on values of
    these types is the constructor of a track, on a track without
    keyframes; the [catch] of the function turns it into [null]. *)

From stdpp Require Import base numbers list strings gmap.
From Stdlib Require Import Ascii QArith Qcanon Qcabs.
Close Scope Qc_scope.
Close Scope Q_scope.

(** ** Numbers *)

Inductive number : Type :=
  | Num (q : Qc)
  | NaN.

Global Instance number_eq_dec : EqDecision number.
Proof. solve_decision. Defined.

Definition of_Z (n : Z) : number := Num (Qc_of_Z n).

Definition lift2 (f : Qc → Qc → Qc) (a b : number) : number :=
  match a, b with
  | Num p, Num q => Num (f p q)
  | _, _ => NaN
  end.

Definition nadd : number → number → number := lift2 Qcplus.
Definition nsub : number → number → number := lift2 Qcminus.
Definition nmul : number → number → number := lift2 Qcmult.

(** [a / b].  A quotient by zero is an infinity or [NaN] in JavaScript; the
    model has no infinities, and the retargeter only divides by a number it
    has found truthy. *)
Definition ndiv (a b : number) : number :=
  match a, b with
  | Num p, Num q => if decide (q = 0%Qc) then NaN else Num (p / q)%Qc
  | _, _ => NaN
  end.

Definition nneg (a : number) : number :=
  match a with
  | Num p => Num (- p)%Qc
  | NaN => NaN
  end.

(** [Math.abs] *)
Definition Math_abs (a : number) : number :=
  match a with
  | Num p => Num (Qcabs p)
  | NaN => NaN
  end.

(** [!v] for [v : number | undefined]: [undefined], [0] and [NaN] are falsy. *)
Definition not_number (v : option number) : bool :=
  match v with
  | None => true
  | Some NaN => true
  | Some (Num q) => bool_decide (q = 0%Qc)
  end.

(** [!s] for [s : string | undefined]: [undefined] and [''] are falsy. *)
Definition not_string (s : option string) : bool :=
  match s with
  | None => true
  | Some EmptyString => true
  | Some (String _ _) => false
  end.

(** [a[i]] read as a number: a read past the end gives [undefined], which
    every arithmetic operation turns into [NaN]. *)
Definition at_index (a : list number) (i : nat) : number := default NaN (a !! i).

(** ** three.js: [Quaternion] and [Vector3] *)

Record Quaternion : Type := mkQuaternion {
  qx : number;
  qy : number;
  qz : number;
  qw : number
}.

Global Instance Quaternion_eq_dec : EqDecision Quaternion.
Proof. solve_decision. Defined.

Record Vector3 : Type := mkVector3 {
  vx : number;
  vy : number;
  vz : number
}.

(** [new THREE.Quaternion()] *)
Definition identity : Quaternion :=
  mkQuaternion (of_Z 0) (of_Z 0) (of_Z 0) (of_Z 1).

(** [Quaternion.multiplyQuaternions(a, b)] *)
Definition multiplyQuaternions (a b : Quaternion) : Quaternion :=
  let qax := qx a in let qay := qy a in let qaz := qz a in let qaw := qw a in
  let qbx := qx b in let qby := qy b in let qbz := qz b in let qbw := qw b in
  mkQuaternion
    (nsub (nadd (nadd (nmul qax qbw) (nmul qaw qbx)) (nmul qay qbz)) (nmul qaz qby))
    (nsub (nadd (nadd (nmul qay qbw) (nmul qaw qby)) (nmul qaz qbx)) (nmul qax qbz))
    (nsub (nadd (nadd (nmul qaz qbw) (nmul qaw qbz)) (nmul qax qby)) (nmul qay qbx))
    (nsub (nsub (nsub (nmul qaw qbw) (nmul qax qbx)) (nmul qay qby)) (nmul qaz qbz)).

(** [this.multiply(q)] is [this * q], [this.premultiply(q)] is [q * this]. *)
Definition multiply (this q : Quaternion) : Quaternion := multiplyQuaternions this q.
Definition premultiply (this q : Quaternion) : Quaternion := multiplyQuaternions q this.

(** [Quaternion.conjugate()]: the three vector components times [-1]. *)
Definition conjugate (q : Quaternion) : Quaternion :=
  mkQuaternion (nneg (qx q)) (nneg (qy q)) (nneg (qz q)) (qw q).

(** [Quaternion.invert()]: three.js takes the quaternion to have unit
    length and returns its conjugate. *)
Definition invert (q : Quaternion) : Quaternion := conjugate q.

(** [Quaternion.fromArray(array)] with offset 0 *)
Definition fromArray (array : list number) : Quaternion :=
  mkQuaternion (at_index array 0) (at_index array 1)
               (at_index array 2) (at_index array 3).

(** [Quaternion.toArray(array)] with offset 0, into a typed array: a write
    past the end of a typed array is dropped, as a list insert is. *)
Definition toArray (q : Quaternion) (array : list number) : list number :=
  <[3 := qw q]> (<[2 := qz q]> (<[1 := qy q]> (<[0 := qx q]> array))).

(** ** three.js: tracks and clips *)

(** The classes of keyframe tracks of three.js; none of them extends
    another, so [instanceof] is a test on this tag. *)
Inductive TrackClass : Type :=
  | QuaternionKeyframeTrack
  | VectorKeyframeTrack
  | NumberKeyframeTrack
  | ColorKeyframeTrack
  | BooleanKeyframeTrack
  | StringKeyframeTrack.

Global Instance TrackClass_eq_dec : EqDecision TrackClass.
Proof. solve_decision. Defined.

Record KeyframeTrack : Type := mkTrack {
  track_class : TrackClass;
  track_name : string;
  track_times : list number;
  track_values : list number
}.

Global Instance KeyframeTrack_eq_dec : EqDecision KeyframeTrack.
Proof. solve_decision. Defined.

Record AnimationClip : Type := mkClip {
  clip_name : string;
  clip_duration : number;
  clip_tracks : list KeyframeTrack
}.

Global Instance AnimationClip_eq_dec : EqDecision AnimationClip.
Proof. solve_decision. Defined.

(** [AnimationClip.findByName(clips, name)]: the first clip of that name,
    here with its index in the array. *)
Fixpoint findByName_from (i : nat) (clips : list AnimationClip) (name : string)
  : option (nat * AnimationClip) :=
  match clips with
  | [] => None
  | c :: clips' =>
      if decide (clip_name c = name) then Some (i, c)
      else findByName_from (S i) clips' name
  end.

Definition findByName (clips : list AnimationClip) (name : string)
  : option (nat * AnimationClip) :=
  findByName_from 0 clips name.

(** ** three.js: the scene graph *)

(** An [Object3D] with what the retargeter and the specification observe
    of it: its name, its local position, and the world position and world
    rotation that [getWorldPosition] and [getWorldQuaternion] return for
    it (three.js derives both from the local transforms of the object and
    of its ancestors). *)
#[warnings="-register-all"]
Inductive Object3D : Type :=
  | mkObject3D (name : string) (position : Vector3)
               (worldPosition : Vector3) (worldQuaternion : Quaternion)
               (children : list Object3D).

Definition obj_name (o : Object3D) : string :=
  match o with mkObject3D n _ _ _ _ => n end.
Definition obj_position (o : Object3D) : Vector3 :=
  match o with mkObject3D _ p _ _ _ => p end.
Definition getWorldPosition (o : Object3D) : Vector3 :=
  match o with mkObject3D _ _ wp _ _ => wp end.
Definition getWorldQuaternion (o : Object3D) : Quaternion :=
  match o with mkObject3D _ _ _ wq _ => wq end.
Definition obj_children (o : Object3D) : list Object3D :=
  match o with mkObject3D _ _ _ _ cs => cs end.

(** [Object3D.getObjectByName]: the object itself if it has the name, or
    else the first hit of the search in its children, in order and depth
    first.  The object found is returned with its [parent]. *)
Fixpoint getObjectByName_from (parent : option Object3D) (o : Object3D)
    (name : string) {struct o} : option (Object3D * option Object3D) :=
  match o with
  | mkObject3D n _ _ _ children =>
      if decide (n = name) then Some (o, parent)
      else
        (fix search (cs : list Object3D) : option (Object3D * option Object3D) :=
           match cs with
           | [] => None
           | child :: cs' =>
               match getObjectByName_from (Some o) child name with
               | Some found => Some found
               | None => search cs'
               end
           end) children
  end.

(** A loaded FBX asset ([THREE.Group]): its scene graph, the object it is
    attached to (if any) and its animation clips. *)
Record Group : Type := mkGroup {
  group_object : Object3D;
  group_parent : option Object3D;
  animations : list AnimationClip
}.

Definition getObjectByName (g : Group) (name : string)
  : option (Object3D * option Object3D) :=
  getObjectByName_from (group_parent g) (group_object g) name.

(** ** three-vrm: the avatar *)

Record VRMHumanoid : Type := mkHumanoid {
  normalizedHumanBones : gmap string Object3D
}.

(** [humanoid.getNormalizedBoneNode(name)]; the name may be [undefined]. *)
Definition getNormalizedBoneNode (h : VRMHumanoid) (name : option string)
  : option Object3D :=
  name ≫= λ n, normalizedHumanBones h !! n.

Record VRMMeta : Type := mkMeta {
  metaVersion : string
}.

Record VRM : Type := mkVRM {
  humanoid : option VRMHumanoid;
  scene : Object3D;
  meta : option VRMMeta
}.

(** [vrm.meta?.metaVersion === '0'] *)
Definition is_meta0 (vrm : VRM) : bool :=
  match meta vrm with
  | Some m => bool_decide (metaVersion m = "0")
  | None => false
  end.

(** ** The retargeter *)

(** A map from Mixamo rig name to VRM Humanoid bone name: the properties
    of the object literal itself.  What the object inherits from its
    prototype is in [Object_prototype] below. *)
Definition mixamoVRMRigMap : gmap string string := list_to_map [
    ("mixamorigHips", "hips");
    ("mixamorigSpine", "spine");
    ("mixamorigSpine1", "chest");
    ("mixamorigSpine2", "upperChest");
    ("mixamorigNeck", "neck");
    ("mixamorigHead", "head");
    ("mixamorigLeftShoulder", "leftShoulder");
    ("mixamorigLeftArm", "leftUpperArm");
    ("mixamorigLeftForeArm", "leftLowerArm");
    ("mixamorigLeftHand", "leftHand");
    ("mixamorigLeftHandThumb1", "leftThumbMetacarpal");
    ("mixamorigLeftHandThumb2", "leftThumbProximal");
    ("mixamorigLeftHandThumb3", "leftThumbDistal");
    ("mixamorigLeftHandIndex1", "leftIndexProximal");
    ("mixamorigLeftHandIndex2", "leftIndexIntermediate");
    ("mixamorigLeftHandIndex3", "leftIndexDistal");
    ("mixamorigLeftHandMiddle1", "leftMiddleProximal");
    ("mixamorigLeftHandMiddle2", "leftMiddleIntermediate");
    ("mixamorigLeftHandMiddle3", "leftMiddleDistal");
    ("mixamorigLeftHandRing1", "leftRingProximal");
    ("mixamorigLeftHandRing2", "leftRingIntermediate");
    ("mixamorigLeftHandRing3", "leftRingDistal");
    ("mixamorigLeftHandPinky1", "leftLittleProximal");
    ("mixamorigLeftHandPinky2", "leftLittleIntermediate");
    ("mixamorigLeftHandPinky3", "leftLittleDistal");
    ("mixamorigRightShoulder", "rightShoulder");
    ("mixamorigRightArm", "rightUpperArm");
    ("mixamorigRightForeArm", "rightLowerArm");
    ("mixamorigRightHand", "rightHand");
    ("mixamorigRightHandPinky1", "rightLittleProximal");
    ("mixamorigRightHandPinky2", "rightLittleIntermediate");
    ("mixamorigRightHandPinky3", "rightLittleDistal");
    ("mixamorigRightHandRing1", "rightRingProximal");
    ("mixamorigRightHandRing2", "rightRingIntermediate");
    ("mixamorigRightHandRing3", "rightRingDistal");
    ("mixamorigRightHandMiddle1", "rightMiddleProximal");
    ("mixamorigRightHandMiddle2", "rightMiddleIntermediate");
    ("mixamorigRightHandMiddle3", "rightMiddleDistal");
    ("mixamorigRightHandIndex1", "rightIndexProximal");
    ("mixamorigRightHandIndex2", "rightIndexIntermediate");
    ("mixamorigRightHandIndex3", "rightIndexDistal");
    ("mixamorigRightHandThumb1", "rightThumbMetacarpal");
    ("mixamorigRightHandThumb2", "rightThumbProximal");
    ("mixamorigRightHandThumb3", "rightThumbDistal");
    ("mixamorigLeftUpLeg", "leftUpperLeg");
    ("mixamorigLeftLeg", "leftLowerLeg");
    ("mixamorigLeftFoot", "leftFoot");
    ("mixamorigLeftToeBase", "leftToes");
    ("mixamorigRightUpLeg", "rightUpperLeg");
    ("mixamorigRightLeg", "rightLowerLeg");
    ("mixamorigRightFoot", "rightFoot");
    ("mixamorigRightToeBase", "rightToes")
  ].

(** The members that an object literal inherits from [Object.prototype]:
    [boneMap[name]] finds one of them when the object has no property of
    its own called [name].  Each of them is a function or an object, so it
    is truthy and it is not a string. *)
Definition Object_prototype : list string := [
    "constructor";
    "__defineGetter__";
    "__defineSetter__";
    "hasOwnProperty";
    "__lookupGetter__";
    "__lookupSetter__";
    "isPrototypeOf";
    "propertyIsEnumerable";
    "toString";
    "valueOf";
    "__proto__";
    "toLocaleString"
  ].

(** What [boneMap[name]] is when it is not [undefined]: the name of a VRM
    bone, or the inherited member called [key]. *)
Inductive BoneMapValue : Type :=
  | bone_name (vrmBoneName : string)
  | inherited_member (key : string).

Global Instance BoneMapValue_eq_dec : EqDecision BoneMapValue.
Proof. solve_decision. Defined.

(** [boneMap[name]].  A property of the object itself may hold [undefined]
    ([Partial] allows it, and the spread copies it): it hides both the
    default entry and the inherited member. *)
Definition get_property (boneMap : gmap string (option string)) (name : string)
  : option BoneMapValue :=
  match boneMap !! name with
  | Some (Some vrmBoneName) => Some (bone_name vrmBoneName)
  | Some None => None
  | None =>
      if bool_decide (name ∈ Object_prototype) then Some (inherited_member name) else None
  end.

(** [!vrmBoneName] *)
Definition not_value (v : option BoneMapValue) : bool :=
  match v with
  | Some (bone_name s) => not_string (Some s)
  | Some (inherited_member _) => false
  | None => true
  end.

(** The value as [getNormalizedBoneNode] reads it: a string is the name of
    a bone; [undefined] and an inherited member are turned into property
    keys ([undefined], the text of a function) under which the humanoid
    has no bone. *)
Definition as_bone_name (v : option BoneMapValue) : option string :=
  match v with
  | Some (bone_name s) => Some s
  | _ => None
  end.

Record RetargetingOptions : Type := mkOptions {
  customBoneMap : option (gmap string (option string));
  logWarnings : option bool;
  animationClipName : option string
}.

(** What the retargeter prints: its three [console.warn] lines and its
    [console.error] line, with the values interpolated into them.  The
    line about a bone that is not found interpolates [vrmBoneName]: a
    string, or an inherited member, which the engine renders as the text
    of the function; [warn_member_not_found] is the line in that case,
    with the name of the member. *)
Inductive ConsoleMessage : Type :=
  | warn_clip_not_found (animationClipName : string)
  | warn_hips_height
  | warn_bone_not_found (vrmBoneName mixamoRigName : string)
  | warn_member_not_found (member mixamoRigName : string)
  | error_failed_to_retarget.

Global Instance ConsoleMessage_eq_dec : EqDecision ConsoleMessage.
Proof. solve_decision. Defined.

(** [String.prototype.split] on a one-character separator. *)
Fixpoint split (sep : ascii) (s : string) : list string :=
  match s with
  | EmptyString => [EmptyString]
  | String c s' =>
      if decide (c = sep) then EmptyString :: split sep s'
      else match split sep s' with
           | piece :: pieces => String c piece :: pieces
           | [] => [String c EmptyString]
           end
  end.

(** A string or [undefined] inside a template literal. *)
Definition template (s : option string) : string := default "undefined" s.

(** [console.warn(`VRM bone "${vrmBoneName}" not found in humanoid for
    Mixamo bone "${mixamoRigName}"`)] *)
Definition bone_not_found (vrmBoneName : option BoneMapValue) (mixamoRigName : string)
  : ConsoleMessage :=
  match vrmBoneName with
  | Some (inherited_member key) => warn_member_not_found key mixamoRigName
  | _ => warn_bone_not_found (template (as_bone_name vrmBoneName)) mixamoRigName
  end.

(** The constructor of [KeyframeTrack] throws when there are no keyframe
    times (and when the name is [undefined], which a template literal
    never is). *)
Definition new_KeyframeTrack (c : TrackClass) (name : string)
    (times values : list number) : option KeyframeTrack :=
  if decide (times = []) then None else Some (mkTrack c name times values).

(** [a < 0] *)
Definition is_negative (a : number) : bool :=
  match a with
  | Num q => bool_decide (q < 0)%Qc
  | NaN => false
  end.

(** [Math.max(a, b)] *)
Definition Math_max (a b : number) : number :=
  match a, b with
  | Num p, Num q => if decide (p ≤ q)%Qc then Num q else Num p
  | _, _ => NaN
  end.

(** [AnimationClip.resetDuration()]: the largest last keyframe time. *)
Definition resetDuration (tracks : list KeyframeTrack) : number :=
  foldl (λ duration track,
           Math_max duration (at_index (track_times track) (length (track_times track) - 1)))
        (of_Z 0) tracks.

(** The constructor of [AnimationClip]: a negative duration asks for the
    duration to be computed from the tracks. *)
Definition new_AnimationClip (name : string) (duration : number)
    (tracks : list KeyframeTrack) : AnimationClip :=
  mkClip name (if is_negative duration then resetDuration tracks else duration) tracks.

(** [flatQuaternion.forEach((v, index) => { values[index + i] = v })],
    started at [index]. *)
Fixpoint forEach_store (flatQuaternion : list number) (index i : nat)
    (values : list number) : list number :=
  match flatQuaternion with
  | [] => values
  | v :: rest => forEach_store rest (S index) i (<[index + i := v]> values)
  end.

(** The body of the loop over the keyframes of a rotation track, at [i]. *)
Definition retarget_keyframe (parentRestWorldRotation restRotationInverse : Quaternion)
    (i : nat) (values : list number) : list number :=
  let flatQuaternion := take 4 (drop i values) in
  let _quatA := fromArray flatQuaternion in
  let _quatA := multiply (premultiply _quatA parentRestWorldRotation) restRotationInverse in
  let flatQuaternion := toArray _quatA flatQuaternion in
  forEach_store flatQuaternion 0 i values.

(** [for (let i = 0; i < track.values.length; i += 4) { ... }], from [i]
    on; [fuel] bounds the number of iterations. *)
Fixpoint retarget_keyframes (fuel : nat)
    (parentRestWorldRotation restRotationInverse : Quaternion)
    (i : nat) (values : list number) : list number :=
  match fuel with
  | O => values
  | S fuel' =>
      if decide (i < length values) then
        retarget_keyframes fuel' parentRestWorldRotation restRotationInverse (i + 4)
          (retarget_keyframe parentRestWorldRotation restRotationInverse i values)
      else values
  end.

(** The whole loop: it runs at most once per value. *)
Definition retarget_rotation_values (parentRestWorldRotation restRotationInverse : Quaternion)
    (values : list number) : list number :=
  retarget_keyframes (length values) parentRestWorldRotation restRotationInverse 0 values.

(** [values.map((v, i) => meta0 && i % 2 === 0 ? -v : v)] *)
Definition convert_rotation_values (meta0 : bool) (values : list number) : list number :=
  imap (λ i v, if meta0 && bool_decide (i `mod` 2 = 0) then nneg v else v) values.

(** [values.map((v, i) => (meta0 && i % 3 !== 1 ? -v : v) * hipsPositionScale)] *)
Definition convert_position_values (meta0 : bool) (hipsPositionScale : number)
    (values : list number) : list number :=
  imap (λ i v, nmul (if meta0 && bool_decide (i `mod` 3 ≠ 1) then nneg v else v)
                   hipsPositionScale) values.

(** What the loop over the tracks of the clip carries from one track to
    the next: the array [tracks] it fills, the two scratch quaternions, and
    the console. *)
Record LoopState : Type := mkLoopState {
  tracks : list KeyframeTrack;
  restRotationInverse : Quaternion;
  parentRestWorldRotation : Quaternion;
  console : list ConsoleMessage
}.

Inductive Completion (A : Type) : Type :=
  | Normal (a : A)
  | Thrown (a : A).
Global Arguments Normal {A} a.
Global Arguments Thrown {A} a.

(** What one call reads besides the track at hand. *)
Record Env : Type := mkEnv {
  env_fbxAsset : Group;
  env_vrm : VRM;
  env_boneMap : gmap string (option string);
  env_logWarnings : bool;
  env_hipsPositionScale : number
}.

(** [tracks.push(new C(`${vrmNodeName}.${propertyName}`, times, values))] *)
Definition push_track (st : LoopState) (c : TrackClass) (vrmNodeName : string)
    (propertyName : option string) (times values : list number)
  : Completion LoopState :=
  match new_KeyframeTrack c (vrmNodeName ++ "." ++ template propertyName) times values with
  | Some t => Normal (mkLoopState (tracks st ++ [t]) (restRotationInverse st)
                                  (parentRestWorldRotation st) (console st))
  | None => Thrown st
  end.

(** The callback of [clip.tracks.forEach]: the state after the track, and
    the track as the callback leaves it. *)
Definition retarget_track (env : Env) (st : LoopState) (track : KeyframeTrack)
  : Completion LoopState * KeyframeTrack :=
  let trackSplitted := split "." (track_name track) in
  let mixamoRigName := default "" (trackSplitted !! 0) in
  let vrmBoneName := get_property (env_boneMap env) mixamoRigName in
  let vrmNodeName :=
    obj_name <$> (humanoid (env_vrm env) ≫= λ h,
                    getNormalizedBoneNode h (as_bone_name vrmBoneName)) in
  let mixamoRigNode := getObjectByName (env_fbxAsset env) mixamoRigName in
  match vrmNodeName with
  | Some vrmNodeName =>
      let propertyName := trackSplitted !! 1 in
      (* Store rotations of rest-pose. *)
      let st :=
        mkLoopState (tracks st)
          match mixamoRigNode with
          | Some (node, _) => invert (getWorldQuaternion node)
          | None => restRotationInverse st
          end
          match mixamoRigNode with
          | Some (_, Some parent) => getWorldQuaternion parent
          | _ => parentRestWorldRotation st
          end
          (console st) in
      match track_class track with
      | QuaternionKeyframeTrack =>
          (* Retarget rotation of mixamoRig to NormalizedBone. *)
          let values :=
            retarget_rotation_values (parentRestWorldRotation st) (restRotationInverse st)
                                     (track_values track) in
          (push_track st QuaternionKeyframeTrack vrmNodeName propertyName
             (track_times track)
             (convert_rotation_values (is_meta0 (env_vrm env)) values),
           mkTrack (track_class track) (track_name track) (track_times track) values)
      | VectorKeyframeTrack =>
          (push_track st VectorKeyframeTrack vrmNodeName propertyName
             (track_times track)
             (convert_position_values (is_meta0 (env_vrm env))
                (env_hipsPositionScale env) (track_values track)),
           track)
      | _ => (Normal st, track)
      end
  | None =>
      if env_logWarnings env && negb (not_value vrmBoneName) then
        (Normal (mkLoopState (tracks st) (restRotationInverse st)
                   (parentRestWorldRotation st)
                   (console st ++ [bone_not_found vrmBoneName mixamoRigName])),
         track)
      else (Normal st, track)
  end.

(** [clip.tracks.forEach(...)]: the final state, and the tracks of the
    clip as the loop leaves them; an exception ends the loop. *)
Fixpoint retarget_tracks (env : Env) (st : LoopState) (clip_tracks : list KeyframeTrack)
  : Completion LoopState * list KeyframeTrack :=
  match clip_tracks with
  | [] => (Normal st, [])
  | track :: rest =>
      match retarget_track env st track with
      | (Normal st', track') =>
          let '(r, rest') := retarget_tracks env st' rest in (r, track' :: rest')
      | (Thrown st', track') => (Thrown st', track' :: rest)
      end
  end.

(** The result of a call: the value returned ([None] is [null]), the
    lines printed, and the asset as the call leaves it. *)
Record Outcome : Type := mkOutcome {
  returned : option AnimationClip;
  printed : list ConsoleMessage;
  fbxAsset_after : Group
}.

(** The hip heights and the scale, as [retargetAnimation] computes them. *)
Definition motionHipsHeight (fbxAsset : Group) : option number :=
  (λ found, vy (obj_position found.1)) <$> getObjectByName fbxAsset "mixamorigHips".

Definition vrmHipsY (vrm : VRM) : option number :=
  (λ node, vy (getWorldPosition node)) <$>
    (humanoid vrm ≫= λ h, getNormalizedBoneNode h (Some "hips")).

Definition vrmRootY (vrm : VRM) : number := vy (getWorldPosition (scene vrm)).

(** A number or [undefined] used in arithmetic. *)
Definition to_number (v : option number) : number := default NaN v.

Definition vrmHipsHeight (vrm : VRM) : number :=
  Math_abs (nsub (to_number (vrmHipsY vrm)) (vrmRootY vrm)).

Definition hipsPositionScale (fbxAsset : Group) (vrm : VRM) : number :=
  ndiv (vrmHipsHeight vrm) (to_number (motionHipsHeight fbxAsset)).

Definition replace_tracks (c : AnimationClip) (ts : list KeyframeTrack) : AnimationClip :=
  mkClip (clip_name c) (clip_duration c) ts.

(** The options with their defaults, and the merged bone map
    [{ ...mixamoVRMRigMap, ...customBoneMap }]: the custom entry wins. *)
Definition option_customBoneMap (options : RetargetingOptions)
  : gmap string (option string) :=
  default ∅ (customBoneMap options).
Definition option_logWarnings (options : RetargetingOptions) : bool :=
  default true (logWarnings options).
Definition option_animationClipName (options : RetargetingOptions) : string :=
  default "mixamo.com" (animationClipName options).

Definition boneMap (options : RetargetingOptions) : gmap string (option string) :=
  option_customBoneMap options ∪ (Some <$> mixamoVRMRigMap).

Definition retarget_env (fbxAsset : Group) (vrm : VRM) (options : RetargetingOptions) : Env :=
  mkEnv fbxAsset vrm (boneMap options) (option_logWarnings options)
        (hipsPositionScale fbxAsset vrm).

(** The state in which the loop over the tracks starts. *)
Definition initial_state : LoopState := mkLoopState [] identity identity [].

Definition retargetAnimation (fbxAsset : Group) (vrm : VRM) (options : RetargetingOptions)
  : Outcome :=
  let logWarnings := option_logWarnings options in
  let animationClipName := option_animationClipName options in
  match findByName (animations fbxAsset) animationClipName with
  | None =>
      mkOutcome None
        (if logWarnings then [warn_clip_not_found animationClipName] else [])
        fbxAsset
  | Some (n, clip) =>
      if not_number (vrmHipsY vrm) || not_number (motionHipsHeight fbxAsset) then
        mkOutcome None (if logWarnings then [warn_hips_height] else []) fbxAsset
      else
        let '(r, clip_tracks') :=
          retarget_tracks (retarget_env fbxAsset vrm options) initial_state
                          (clip_tracks clip) in
        let fbxAsset' :=
          mkGroup (group_object fbxAsset) (group_parent fbxAsset)
                  (<[n := replace_tracks clip clip_tracks']> (animations fbxAsset)) in
        match r with
        | Normal st =>
            mkOutcome (Some (new_AnimationClip "vrmAnimation" (clip_duration clip) (tracks st)))
                      (console st) fbxAsset'
        | Thrown st =>
            (* caught: [console.error], [return null] *)
            mkOutcome None
              (console st ++ (if logWarnings then [error_failed_to_retarget] else []))
              fbxAsset'
        end
  end.

(** * Vocabulary of the properties *)

(** ** Rotation values, keyframe by keyframe *)

(** The rotation of one keyframe [q]: [P * q * Rinv]. *)
Definition rotate (P Rinv q : Quaternion) : Quaternion :=
  multiplyQuaternions (multiplyQuaternions P q) Rinv.

(** The values of a rotation track with every keyframe rotated; the one,
    two or three values left over at the end of a malformed array are read
    as a keyframe with [undefined] components. *)
Fixpoint keyframes_map (P Rinv : Quaternion) (values : list number) : list number :=
  match values with
  | x :: y :: z :: w :: rest =>
      let q := rotate P Rinv (mkQuaternion x y z w) in
      qx q :: qy q :: qz q :: qw q :: keyframes_map P Rinv rest
  | tail => toArray (rotate P Rinv (fromArray tail)) tail
  end.

(** The [k]-th keyframe of a flat array of rotation values. *)
Definition keyframe (k : nat) (values : list number) : Quaternion :=
  fromArray (take 4 (drop (4 * k) values)).

(** ** One track *)

(** The constants of the callback of the loop that depend on the track
    alone, not on the state of the loop: the two pieces of its name, the
    bone it is mapped to and the joint of the avatar for that bone. *)
Definition mixamoRigName (track : KeyframeTrack) : string :=
  default "" (split "." (track_name track) !! 0).

Definition propertyName (track : KeyframeTrack) : option string :=
  split "." (track_name track) !! 1.

Definition vrmBoneName (env : Env) (track : KeyframeTrack) : option BoneMapValue :=
  get_property (env_boneMap env) (mixamoRigName track).

Definition vrmNode (env : Env) (track : KeyframeTrack) : option Object3D :=
  humanoid (env_vrm env) ≫= λ h,
    getNormalizedBoneNode h (as_bone_name (vrmBoneName env track)).

(** The state of the loop once the rest rotations of the joint of the
    track are stored in the scratch quaternions: a joint that is missing,
    or has no parent, leaves in them what they held. *)
Definition store_rest (env : Env) (st : LoopState) (track : KeyframeTrack) : LoopState :=
  let mixamoRigNode := getObjectByName (env_fbxAsset env) (mixamoRigName track) in
  mkLoopState (tracks st)
    match mixamoRigNode with
    | Some (node, _) => invert (getWorldQuaternion node)
    | None => restRotationInverse st
    end
    match mixamoRigNode with
    | Some (_, Some parent) => getWorldQuaternion parent
    | _ => parentRestWorldRotation st
    end
    (console st).

(** The name of the track made for [track] on the joint [target]. *)
Definition output_name (target : Object3D) (track : KeyframeTrack) : string :=
  obj_name target ++ "." ++ template (propertyName track).

(** The line that the loop prints for [track], if any. *)
Definition warning (env : Env) (track : KeyframeTrack) : option ConsoleMessage :=
  match vrmNode env track with
  | Some _ => None
  | None =>
      if env_logWarnings env && negb (not_value (vrmBoneName env track))
      then Some (bone_not_found (vrmBoneName env track) (mixamoRigName track))
      else None
  end.

(** The classes of tracks that the loop retargets, and the tracks for
    which it makes a track. *)
Definition is_retargeted_class (c : TrackClass) : bool :=
  match c with
  | QuaternionKeyframeTrack | VectorKeyframeTrack => true
  | _ => false
  end.

Definition emits (env : Env) (track : KeyframeTrack) : bool :=
  bool_decide (is_Some (vrmNode env track)) && is_retargeted_class (track_class track).

(** What a call may change of a track of the source: the values of a
    rotation track. *)
Definition same_but_rotation_values (track track' : KeyframeTrack) : Prop :=
  track_class track' = track_class track
  ∧ track_name track' = track_name track
  ∧ track_times track' = track_times track
  ∧ (track_class track ≠ QuaternionKeyframeTrack → track' = track).

(** The [k]-th sample of a flat array of position values. *)
Definition position_sample (k : nat) (values : list number) : option Vector3 :=
  x ← values !! (3 * k); y ← values !! (3 * k + 1); z ← values !! (3 * k + 2);
  Some (mkVector3 x y z).

(** The correction of a rotation for a VRM 0.x avatar, as the code applies
    it: the components at the even indices of the stored [x, y, z, w]. *)
Definition negate_x_z (q : Quaternion) : Quaternion :=
  mkQuaternion (nneg (qx q)) (qy q) (nneg (qz q)) (qw q).

(** ** The wording of the specification, where it is compared with the code *)

(** The rest rotations of a source joint as the specification words
    them: the joint's rest-world rotation and that of its parent,
    "identity if the joint is the root or has no parent"; none when the
    joint does not exist. *)
Definition spec_restWorldRotations (fbxAsset : Group) (jointName : string)
  : option (Quaternion * Quaternion) :=
  (λ found, (getWorldQuaternion found.1,
             from_option getWorldQuaternion identity found.2)) <$>
    getObjectByName fbxAsset jointName.

(** The correction of a rotation as the specification words it: "negate the
    quaternion's w and y components". *)
Definition spec_negate_w_y (q : Quaternion) : Quaternion :=
  mkQuaternion (qx q) (nneg (qy q)) (qz q) (nneg (qw q)).

(** The hip height as the specification words it: "the vertical offset of
    the root/hip joint's world position from the skeleton's own scene-root
    world position". *)
Definition spec_hipHeight (hips root : Object3D) : number :=
  nsub (vy (getWorldPosition hips)) (vy (getWorldPosition root)).

(** The scale as the specification words it: measured that way "for both
    rigs", [targetHipHeight / sourceHipHeight]. *)
Definition spec_computeScale (fbxAsset : Group) (vrm : VRM) : option number :=
  targetHips ← humanoid vrm ≫= (λ h, getNormalizedBoneNode h (Some "hips"));
  sourceHips ← getObjectByName fbxAsset "mixamorigHips";
  Some (ndiv (spec_hipHeight targetHips (scene vrm))
             (spec_hipHeight sourceHips.1 (group_object fbxAsset))).

(** A height that "evaluates to zero or non-finite". *)
Definition zero_or_nonfinite (a : number) : bool :=
  match a with
  | Num q => bool_decide (q = 0%Qc)
  | NaN => true
  end.

(** The failure of the scale computation as the specification words it:
    "root/hip joint missing on either rig, or computed height is
    zero/non-finite", with the heights that the code computes. *)
Definition spec_ScaleUndefined (fbxAsset : Group) (vrm : VRM) : bool :=
  bool_decide (vrmHipsY vrm = None)
  || bool_decide (motionHipsHeight fbxAsset = None)
  || zero_or_nonfinite (vrmHipsHeight vrm)
  || zero_or_nonfinite (to_number (motionHipsHeight fbxAsset)).

(** A track whose joint has no entry in the merged bone map. *)
Definition unmapped (options : RetargetingOptions) (track : KeyframeTrack) : bool :=
  bool_decide (boneMap options !! mixamoRigName track = None).

(** The line printed for a track: the line about a bone that is not found,
    with an inherited member for the bone, when warnings are on, the joint
    of the track has no entry in the merged bone map and its name is that
    of a member that the map inherits; no line otherwise. *)
Definition member_warning (options : RetargetingOptions) (track : KeyframeTrack)
  : option ConsoleMessage :=
  if option_logWarnings options && unmapped options track
     && bool_decide (mixamoRigName track ∈ Object_prototype)
  then Some (warn_member_not_found (mixamoRigName track) (mixamoRigName track))
  else None.

(** ** Sample rigs and clips *)

Definition of_Q (q : Q) : number := Num (Q2Qc q).

Definition vec (x y z : Z) : Vector3 := mkVector3 (of_Z x) (of_Z y) (of_Z z).

Definition quat (x y z w : Q) : Quaternion :=
  mkQuaternion (of_Q x) (of_Q y) (of_Q z) (of_Q w).

Definition default_options : RetargetingOptions := mkOptions None None None.

(** A Mixamo rig: the root of the asset, the hips 90 above it and turned
    about the x axis, and the spine. *)
Definition sample_spine : Object3D :=
  mkObject3D "mixamorigSpine" (vec 0 10 0) (vec 0 100 0) (quat 0 (3 # 5) 0 (4 # 5)) [].
Definition sample_hips : Object3D :=
  mkObject3D "mixamorigHips" (vec 0 90 0) (vec 0 90 0) (quat (3 # 5) 0 0 (4 # 5))
             [sample_spine].
Definition sample_root : Object3D :=
  mkObject3D "" (vec 0 0 0) (vec 0 0 0) (quat 0 0 (3 # 5) (4 # 5)) [sample_hips].

(** The same rig without its spine. *)
Definition sample_hips_alone : Object3D :=
  mkObject3D "mixamorigHips" (vec 0 90 0) (vec 0 90 0) (quat (3 # 5) 0 0 (4 # 5)) [].
Definition sample_root_no_spine : Object3D :=
  mkObject3D "" (vec 0 0 0) (vec 0 0 0) (quat 0 0 (3 # 5) (4 # 5)) [sample_hips_alone].

(** The same rig with an armature node, 10 above the root, between the
    root and the hips: the hips are 90 above the armature and 100 above
    the root. *)
Definition sample_hips_raised : Object3D :=
  mkObject3D "mixamorigHips" (vec 0 90 0) (vec 0 100 0) (quat (3 # 5) 0 0 (4 # 5)) [].
Definition sample_armature : Object3D :=
  mkObject3D "Armature" (vec 0 10 0) (vec 0 10 0) (quat 0 0 0 1) [sample_hips_raised].
Definition sample_root_armature : Object3D :=
  mkObject3D "" (vec 0 0 0) (vec 0 0 0) (quat 0 0 0 1) [sample_armature].

Definition hips_quaternion : KeyframeTrack :=
  mkTrack QuaternionKeyframeTrack "mixamorigHips.quaternion" [of_Z 0; of_Z 1]
    [of_Z 0; of_Z 0; of_Z 0; of_Z 1;
     of_Q (1 # 2); of_Q (1 # 2); of_Q (1 # 2); of_Q (1 # 2)].
Definition hips_position : KeyframeTrack :=
  mkTrack VectorKeyframeTrack "mixamorigHips.position" [of_Z 0]
    [of_Z 0; of_Z 10; of_Z 0].
Definition spine_quaternion : KeyframeTrack :=
  mkTrack QuaternionKeyframeTrack "mixamorigSpine.quaternion" [of_Z 0]
    [of_Q (1 # 2); of_Q (1 # 2); of_Q (1 # 2); of_Q (1 # 2)].
Definition eye_quaternion : KeyframeTrack :=
  mkTrack QuaternionKeyframeTrack "mixamorigLeftEye.quaternion" [of_Z 0]
    [of_Z 0; of_Z 0; of_Z 0; of_Z 1].
Definition hips_opacity : KeyframeTrack :=
  mkTrack NumberKeyframeTrack "mixamorigHips.material.opacity" [of_Z 0] [of_Z 1].

Definition sample_clip (tracks : list KeyframeTrack) : AnimationClip :=
  mkClip "mixamo.com" (of_Z 1) tracks.

Definition sample_fbx : Group :=
  mkGroup sample_root None [sample_clip [hips_quaternion; hips_position; spine_quaternion]].
Definition sample_fbx_no_spine : Group :=
  mkGroup sample_root_no_spine None [sample_clip [hips_quaternion; spine_quaternion]].
Definition sample_fbx_eye : Group :=
  mkGroup sample_root None [sample_clip [hips_quaternion; eye_quaternion]].
Definition sample_fbx_armature : Group :=
  mkGroup sample_root_armature None [sample_clip [hips_position]].
Definition sample_fbx_opacity : Group :=
  mkGroup sample_root None [sample_clip [hips_quaternion; hips_opacity]].
Definition sample_fbx_rotation_only : Group :=
  mkGroup sample_root None [sample_clip [hips_quaternion]].

(** An asset whose root is the hips themselves: they have no parent.  The
    track of the spine comes first in its clip. *)
Definition sample_fbx_hips_root : Group :=
  mkGroup sample_hips None [sample_clip [spine_quaternion; hips_quaternion]].

(** A clip with a track of a joint called [constructor], a name that the
    merged bone map inherits from its prototype. *)
Definition constructor_quaternion : KeyframeTrack :=
  mkTrack QuaternionKeyframeTrack "constructor.quaternion" [of_Z 0]
    [of_Z 0; of_Z 0; of_Z 0; of_Z 1].
Definition sample_fbx_constructor : Group :=
  mkGroup sample_root None
    [sample_clip [hips_quaternion; eye_quaternion; constructor_quaternion]].

(** An asset with two clips, and the options that select the second. *)
Definition sample_fbx_take_001 : Group :=
  mkGroup sample_root None
    [sample_clip [hips_quaternion]; mkClip "Take 001" (of_Z 7) [hips_position]].
Definition take_001_options : RetargetingOptions := mkOptions None None (Some "Take 001").

(** An avatar with normalized hips and spine bones; its hips are at
    height [hipsY] in the world and its scene is at height [rootY]. *)
Definition vrm_node (name : string) (y : Z) : Object3D :=
  mkObject3D name (vec 0 0 0) (vec 0 y 0) (quat 0 0 0 1) [].

Definition sample_vrm_at (hipsY rootY : Z) (version : string) : VRM :=
  mkVRM (Some (mkHumanoid (list_to_map [("hips", vrm_node "Normalized_Hips" hipsY);
                                        ("spine", vrm_node "Normalized_Spine" (hipsY + 15))])))
        (vrm_node "VRMRoot" rootY)
        (Some (mkMeta version)).

Definition sample_vrm (version : string) : VRM := sample_vrm_at 135 0 version.

(** The values of the [i]-th track of the clip returned, if there is one. *)
Definition returned_values (r : Outcome) (i : nat) : option (list number) :=
  returned r ≫= λ out, track_values <$> clip_tracks out !! i.

(** A height that the guard of the scale finds falsy: [undefined] (the hips
    are missing), [NaN] or zero. *)
Definition falsy (v : option number) : Prop :=
  v = None ∨ v = Some NaN ∨ v = Some (of_Z 0).

(** * The rest of the library *)

(** ** Loading from a URL *)





(** * Vocabulary of the further properties *)

(** A number that is not [NaN], a quaternion of such numbers. *)
Definition finite (a : number) : Prop := ∃ q, a = Num q.

Definition finite_quaternion (q : Quaternion) : Prop :=
  finite (qx q) ∧ finite (qy q) ∧ finite (qz q) ∧ finite (qw q).



(** The half turn about the y axis. *)
Definition half_turn_y : Quaternion :=
  mkQuaternion (Num 0%Qc) (Num 1%Qc) (Num 0%Qc) (Num 0%Qc).

(** A string without a dot. *)
Fixpoint dot_free (s : string) : bool :=
  match s with
  | EmptyString => true
  | String c s' => negb (bool_decide (c = "."%char)) && dot_free s'
  end.

(** A track made from a track of the source: what the two have in common
    whatever the rest rotations are. *)
Definition retargeted_from (env : Env) (track track' : KeyframeTrack) : Prop :=
  track_class track' = track_class track
  ∧ is_retargeted_class (track_class track) = true
  ∧ track_times track' = track_times track
  ∧ track_times track ≠ []
  ∧ length (track_values track') = length (track_values track)
  ∧ ∃ target, vrmNode env track = Some target
              ∧ track_name track' = output_name target track.

(** A track for which the loop prints the line [m]: the avatar has no
    joint for what the bone map gives for the joint of the track, and that
    is the name of a bone, not empty, or a member that the bone map
    inherits under the name of the joint. *)
Definition target_joint_missing (env : Env) (track : KeyframeTrack) (m : ConsoleMessage)
  : Prop :=
  vrmNode env track = None
  ∧ ((∃ bone, env_boneMap env !! mixamoRigName track = Some (Some bone)
              ∧ bone ≠ ""
              ∧ m = warn_bone_not_found bone (mixamoRigName track))
     ∨ (env_boneMap env !! mixamoRigName track = None
        ∧ mixamoRigName track ∈ Object_prototype
        ∧ m = warn_member_not_found (mixamoRigName track) (mixamoRigName track))).

(** The state that a step of the loop ends in, thrown or not. *)
Definition completion_state (r : Completion LoopState) : LoopState :=
  match r with
  | Normal st => st
  | Thrown st => st
  end.

(** ** Further sample data *)

Definition silent_options : RetargetingOptions := mkOptions None (Some false) None.

Definition spine_no_keyframes : KeyframeTrack :=
  mkTrack QuaternionKeyframeTrack "mixamorigSpine.quaternion" []
    [of_Z 0; of_Z 0; of_Z 0; of_Z 1].

Definition sample_fbx_no_keyframes : Group :=
  mkGroup sample_root None [sample_clip [hips_quaternion; spine_no_keyframes]].

Definition sample_fbx_negative_duration : Group :=
  mkGroup sample_root None [mkClip "mixamo.com" (of_Z (-1)) [hips_quaternion; hips_position]].

(** A rig whose root and hips are at rest in the identity. *)
Definition sample_hips_at_rest : Object3D :=
  mkObject3D "mixamorigHips" (vec 0 90 0) (vec 0 90 0)
             (mkQuaternion (of_Z 0) (of_Z 0) (of_Z 0) (of_Z 1)) [].
Definition sample_root_at_rest : Object3D :=
  mkObject3D "" (vec 0 0 0) (vec 0 0 0)
             (mkQuaternion (of_Z 0) (of_Z 0) (of_Z 0) (of_Z 1)) [sample_hips_at_rest].
Definition sample_fbx_at_rest : Group :=
  mkGroup sample_root_at_rest None [sample_clip [hips_quaternion]].

Definition neck_quaternion : KeyframeTrack :=
  mkTrack QuaternionKeyframeTrack "mixamorigNeck.quaternion" [of_Z 0]
    [of_Z 0; of_Z 0; of_Z 0; of_Z 1].

Definition hips_to_spine_options : RetargetingOptions :=
  mkOptions (Some {["mixamorigHips" := Some "spine"]}) None None.

(** Options whose bone map holds [undefined] for the spine. *)
Definition no_spine_options : RetargetingOptions :=
  mkOptions (Some {["mixamorigSpine" := None]}) None None.

Definition sample_fbx_neck_member : Group :=
  mkGroup sample_root None
    [sample_clip [neck_quaternion; constructor_quaternion; hips_quaternion]].

(** * Lemmas *)

(** Closes the goal that a call on sample data returns some clip. *)
Ltac returns_some := eexists; vm_compute; reflexivity.

(** ** The loop over the keyframes of a rotation track *)

Lemma forEach_store_app flat : ∀ index i pre old post,
  length pre = index + i → length old = length flat →
  forEach_store flat index i (pre ++ old ++ post) = pre ++ flat ++ post.
Proof.
  induction flat as [|v flat IH]; intros index i pre old post Hpre Hold.
  - destruct old; [done | discriminate].
  - destruct old as [|o old]; [discriminate|]. simpl in *.
    rewrite insert_app_r_alt by lia.
    replace (index + i - length pre) with 0 by lia. simpl.
    rewrite !(cons_middle v pre), !app_assoc.
    rewrite <- !(app_assoc (pre ++ [v])).
    apply IH; [rewrite length_app; simpl; lia | lia].
Qed.

Lemma length_toArray q a : length (toArray q a) = length a.
Proof. unfold toArray. by rewrite !length_insert. Qed.

Section keyframes.
Context (P Rinv : Quaternion).

(** One iteration rewrites the four values at [i], or the fewer that are
    left, and nothing else. *)
Lemma retarget_keyframe_app pre chunk post :
  length chunk = Nat.min 4 (length (chunk ++ post)) →
  retarget_keyframe P Rinv (length pre) (pre ++ chunk ++ post)
  = pre ++ toArray (rotate P Rinv (fromArray chunk)) chunk ++ post.
Proof.
  intros Hlen. unfold retarget_keyframe.
  rewrite drop_app_length.
  assert (take 4 (chunk ++ post) = chunk) as ->.
  { rewrite length_app in Hlen. rewrite take_app, (take_ge chunk) by lia.
    destruct post as [|p post]; [by rewrite take_nil, app_nil_r|].
    cbn [length] in Hlen.
    replace (4 - length chunk) with 0 by lia. by rewrite app_nil_r. }
  apply forEach_store_app; [done | by rewrite length_toArray].
Qed.

Lemma retarget_keyframe_tail pre tail :
  length tail ≤ 4 →
  retarget_keyframe P Rinv (length pre) (pre ++ tail)
  = pre ++ toArray (rotate P Rinv (fromArray tail)) tail.
Proof.
  intros Hlen. pose proof (retarget_keyframe_app pre tail []) as H.
  rewrite !app_nil_r in H. apply H. lia.
Qed.

Lemma retarget_keyframes_done fuel i values :
  length values ≤ i → retarget_keyframes fuel P Rinv i values = values.
Proof. intros Hi. destruct fuel; simpl; [done|]. case_decide; [lia | done]. Qed.

(** The invariant of the loop: the values before [i] are final, those from
    [i] on are still the source's; with fuel for every keyframe left the
    loop ends with all of them rewritten. *)
Lemma retarget_keyframes_app : ∀ fuel done todo,
  length todo ≤ 4 * fuel →
  retarget_keyframes fuel P Rinv (length done) (done ++ todo)
  = done ++ keyframes_map P Rinv todo.
Proof.
  induction fuel as [|fuel IH]; intros done todo Hfuel.
  - destruct todo; [simpl; by rewrite !app_nil_r | simpl in Hfuel; lia].
  - cbn [retarget_keyframes]. rewrite length_app. case_decide as Hi.
    + destruct todo as [|x [|y [|z [|w rest]]]]; cbn [length] in Hi; try lia.
      4: { change (x :: y :: z :: w :: rest) with ([x; y; z; w] ++ rest) at 1.
        rewrite (retarget_keyframe_app done [x; y; z; w] rest) by done.
        change (toArray _ [x; y; z; w]) with
          (let q := rotate P Rinv (mkQuaternion x y z w) in [qx q; qy q; qz q; qw q]).
        cbv zeta. set (q := rotate _ _ _).
        replace (length done + 4) with (length (done ++ [qx q; qy q; qz q; qw q]))
          by (rewrite length_app; done).
        rewrite (app_assoc done _ rest). rewrite IH by (cbn [length] in Hfuel; lia).
        by rewrite <- app_assoc. }
      all: rewrite retarget_keyframe_tail by (cbn [length]; lia);
        rewrite retarget_keyframes_done;
        [reflexivity | rewrite length_app, length_toArray; cbn [length]; lia].
    + destruct todo; [simpl; by rewrite !app_nil_r | cbn [length] in Hi; lia].
Qed.

(** The loop of the code, with the fuel it is given, rewrites every
    keyframe. *)
Lemma retarget_rotation_values_map values :
  retarget_rotation_values P Rinv values = keyframes_map P Rinv values.
Proof.
  unfold retarget_rotation_values.
  apply (retarget_keyframes_app (length values) [] values). lia.
Qed.

Lemma length_keyframes_map : ∀ n values,
  length values ≤ n → length (keyframes_map P Rinv values) = length values.
Proof.
  induction n as [|n IH]; intros values Hn.
  - destruct values; [done | simpl in Hn; lia].
  - destruct values as [|x [|y [|z [|w rest]]]]; try done.
    cbn [keyframes_map length]. rewrite IH; [done | cbn [length] in Hn; lia].
Qed.

Lemma keyframe_S k x y z w rest :
  keyframe (S k) (x :: y :: z :: w :: rest) = keyframe k rest.
Proof. unfold keyframe. by replace (4 * S k) with (S (S (S (S (4 * k))))) by lia. Qed.

Lemma keyframe_keyframes_map : ∀ k values,
  4 * k + 4 ≤ length values →
  keyframe k (keyframes_map P Rinv values) = rotate P Rinv (keyframe k values).
Proof.
  induction k as [|k IH]; intros values Hk;
    destruct values as [|x [|y [|z [|w rest]]]]; cbn [length] in Hk; try lia.
  - cbn [keyframes_map]. cbv zeta.
    change (keyframe 0 (x :: y :: z :: w :: rest)) with (mkQuaternion x y z w).
    by destruct (rotate P Rinv (mkQuaternion x y z w)).
  - cbn [keyframes_map]. rewrite !keyframe_S. apply IH. lia.
Qed.

End keyframes.

(** ** Keyframes and samples of the converted values *)

Lemma at_index_take_drop (values : list number) i j :
  j < 4 → at_index (take 4 (drop i values)) j = at_index values (i + j).
Proof. intros Hj. unfold at_index. by rewrite lookup_take_lt, lookup_drop. Qed.

Lemma keyframe_components k values :
  keyframe k values =
    mkQuaternion (at_index values (4 * k)) (at_index values (4 * k + 1))
                 (at_index values (4 * k + 2)) (at_index values (4 * k + 3)).
Proof.
  unfold keyframe, fromArray. rewrite !at_index_take_drop by lia.
  by rewrite Nat.add_0_r.
Qed.

Lemma at_index_convert_rotation_values meta0 values i :
  at_index (convert_rotation_values meta0 values) i =
    if meta0 && bool_decide (i `mod` 2 = 0) then nneg (at_index values i)
    else at_index values i.
Proof.
  unfold at_index, convert_rotation_values. rewrite list_lookup_imap.
  destruct (values !! i); simpl; [done|]. by destruct (meta0 && _).
Qed.

Lemma mod_2_keyframe k j : (4 * k + j) `mod` 2 = j `mod` 2.
Proof. replace (4 * k + j) with (j + (2 * k) * 2) by lia. apply Nat.Div0.mod_add. Qed.

Lemma mod_3_sample k j : (3 * k + j) `mod` 3 = j `mod` 3.
Proof. replace (3 * k + j) with (j + k * 3) by lia. apply Nat.Div0.mod_add. Qed.

Lemma mod_2_keyframe_0 k : (4 * k) `mod` 2 = 0.
Proof. rewrite <- (Nat.add_0_r (4 * k)). apply mod_2_keyframe. Qed.

Lemma mod_3_sample_0 k : (3 * k) `mod` 3 = 0.
Proof. rewrite <- (Nat.add_0_r (3 * k)). apply mod_3_sample. Qed.

Lemma keyframe_convert_rotation_values meta0 k values :
  keyframe k (convert_rotation_values meta0 values) =
    if meta0 then negate_x_z (keyframe k values) else keyframe k values.
Proof.
  rewrite !keyframe_components, !at_index_convert_rotation_values.
  rewrite !mod_2_keyframe, mod_2_keyframe_0.
  by destruct meta0.
Qed.

Lemma nmul_nneg a s : nmul (nneg a) s = nneg (nmul a s).
Proof. destruct a as [p|], s as [q|]; simpl; try done. f_equal. ring. Qed.

Lemma position_sample_convert meta0 s k values v :
  position_sample k values = Some v →
  position_sample k (convert_position_values meta0 s values) =
    Some (mkVector3 (if meta0 then nneg (nmul (vx v) s) else nmul (vx v) s)
                    (nmul (vy v) s)
                    (if meta0 then nneg (nmul (vz v) s) else nmul (vz v) s)).
Proof.
  unfold position_sample, convert_position_values. rewrite !list_lookup_imap.
  destruct (values !! (3 * k)) as [x|]; [|done].
  destruct (values !! (3 * k + 1)) as [y|]; [|done].
  destruct (values !! (3 * k + 2)) as [z|]; [|done].
  cbn -[Nat.mul Nat.modulo Nat.add]. intros [= <-]. cbn -[Nat.mul Nat.modulo Nat.add].
  rewrite !mod_3_sample, mod_3_sample_0.
  destruct meta0; simpl; by rewrite ?nmul_nneg.
Qed.

(** ** The guard of the scale *)

Lemma Qc_of_Z_0 : Qc_of_Z 0 = 0%Qc.
Proof. by apply Qc_is_canon. Qed.

Lemma not_number_true v : not_number v = true ↔ falsy v.
Proof.
  unfold falsy, of_Z. rewrite Qc_of_Z_0. destruct v as [[q|]|]; simpl.
  - rewrite bool_decide_eq_true. split; [intros ->; auto|].
    by intros [|[|[=]]].
  - split; auto.
  - split; auto.
Qed.

Lemma not_number_false v : not_number v = false ↔ ¬ falsy v.
Proof. rewrite <- not_number_true. by destruct (not_number v). Qed.

(** ** One track *)

Lemma push_track_Normal st c name prop times values st' :
  push_track st c name prop times values = Normal st' →
  times ≠ [] ∧
  st' = mkLoopState (tracks st ++ [mkTrack c (name ++ "." ++ template prop) times values])
          (restRotationInverse st) (parentRestWorldRotation st) (console st).
Proof.
  unfold push_track, new_KeyframeTrack. case_decide; [done|]. by intros [= <-].
Qed.

Lemma push_track_nonempty st c name prop times values :
  times ≠ [] →
  push_track st c name prop times values =
    Normal (mkLoopState (tracks st ++ [mkTrack c (name ++ "." ++ template prop) times values])
              (restRotationInverse st) (parentRestWorldRotation st) (console st)).
Proof. intros Ht. unfold push_track, new_KeyframeTrack. by case_decide. Qed.

Section track.
Context (env : Env).

(** The four ways through the callback. *)
Lemma retarget_track_dropped st track :
  vrmNode env track = None →
  retarget_track env st track =
    (Normal (mkLoopState (tracks st) (restRotationInverse st) (parentRestWorldRotation st)
               (console st ++ option_list (warning env track))), track).
Proof.
  intros Hnode. unfold retarget_track, warning. rewrite Hnode.
  fold (mixamoRigName track). fold (vrmBoneName env track).
  unfold vrmNode in Hnode. rewrite Hnode. cbn [fmap option_fmap option_map].
  destruct (env_logWarnings env && negb (not_value (vrmBoneName env track))); [done|].
  cbn [option_list]. rewrite app_nil_r. by destruct st.
Qed.

Lemma retarget_track_rotation st track target :
  vrmNode env track = Some target →
  track_class track = QuaternionKeyframeTrack →
  let st1 := store_rest env st track in
  let values := retarget_rotation_values (parentRestWorldRotation st1)
                  (restRotationInverse st1) (track_values track) in
  retarget_track env st track =
    (push_track st1 QuaternionKeyframeTrack (obj_name target) (propertyName track)
       (track_times track) (convert_rotation_values (is_meta0 (env_vrm env)) values),
     mkTrack (track_class track) (track_name track) (track_times track) values).
Proof.
  intros Hnode Hclass. unfold retarget_track.
  fold (mixamoRigName track). fold (vrmBoneName env track).
  unfold vrmNode in Hnode. rewrite Hnode, Hclass. reflexivity.
Qed.

Lemma retarget_track_position st track target :
  vrmNode env track = Some target →
  track_class track = VectorKeyframeTrack →
  retarget_track env st track =
    (push_track (store_rest env st track) VectorKeyframeTrack (obj_name target)
       (propertyName track) (track_times track)
       (convert_position_values (is_meta0 (env_vrm env)) (env_hipsPositionScale env)
          (track_values track)),
     track).
Proof.
  intros Hnode Hclass. unfold retarget_track.
  fold (mixamoRigName track). fold (vrmBoneName env track).
  unfold vrmNode in Hnode. rewrite Hnode, Hclass. reflexivity.
Qed.

Lemma retarget_track_other st track target :
  vrmNode env track = Some target →
  is_retargeted_class (track_class track) = false →
  retarget_track env st track = (Normal (store_rest env st track), track).
Proof.
  intros Hnode Hclass. unfold retarget_track.
  fold (mixamoRigName track). fold (vrmBoneName env track).
  unfold vrmNode in Hnode. rewrite Hnode.
  by destruct (track_class track).
Qed.

(** What one step of the loop does to the array of tracks and to the
    console, whatever the scratch quaternions hold. *)
Lemma retarget_track_Normal st track st' track' :
  retarget_track env st track = (Normal st', track') →
  tracks st' = tracks st ++ (if emits env track then drop (length (tracks st)) (tracks st') else [])
  ∧ length (tracks st') = length (tracks st) + (if emits env track then 1 else 0)
  ∧ console st' = console st ++ option_list (warning env track).
Proof.
  intros Hstep. unfold emits, warning.
  destruct (vrmNode env track) as [target|] eqn:Hnode.
  - rewrite bool_decide_eq_true_2 by eauto. cbn [andb option_list].
    destruct (track_class track) eqn:Hclass; cbn [is_retargeted_class].
    1: rewrite (retarget_track_rotation _ _ _ Hnode Hclass) in Hstep.
    2: rewrite (retarget_track_position _ _ _ Hnode Hclass) in Hstep.
    1,2: cbv zeta in Hstep; injection Hstep as Hpush _;
      apply push_track_Normal in Hpush as [_ ->]; cbn;
      rewrite drop_app_length, length_app, app_nil_r; cbn; done.
    all: rewrite (retarget_track_other _ _ target) in Hstep
        by (try done; by rewrite Hclass);
      injection Hstep as <- _; cbn; by rewrite !app_nil_r, Nat.add_0_r.
  - rewrite bool_decide_eq_false_2 by (by intros [? ?]). cbn [andb].
    rewrite retarget_track_dropped in Hstep by done.
    injection Hstep as <- _. cbn. rewrite app_nil_r, Nat.add_0_r.
    unfold warning. by rewrite Hnode.
Qed.

(** A step only throws from the constructor of a track without keyframes. *)
Lemma retarget_track_no_throw st track :
  (emits env track = true → track_times track ≠ []) →
  ∃ st' track', retarget_track env st track = (Normal st', track').
Proof.
  intros Hne. unfold emits in Hne.
  destruct (vrmNode env track) as [target|] eqn:Hnode.
  - rewrite bool_decide_eq_true_2 in Hne by eauto. cbn [andb] in Hne.
    destruct (is_retargeted_class (track_class track)) eqn:Hret.
    + destruct (track_class track) eqn:Hclass; try done.
      * rewrite (retarget_track_rotation _ _ _ Hnode Hclass). cbv zeta.
        rewrite push_track_nonempty by auto. eauto.
      * rewrite (retarget_track_position _ _ _ Hnode Hclass).
        rewrite push_track_nonempty by auto. eauto.
    + rewrite (retarget_track_other _ _ _ Hnode Hret). eauto.
  - rewrite retarget_track_dropped by done. eauto.
Qed.

(** What a step may change of the track it is given. *)
Lemma retarget_track_source st track r track' :
  retarget_track env st track = (r, track') →
  same_but_rotation_values track track'.
Proof.
  intros Hstep. unfold same_but_rotation_values.
  destruct (vrmNode env track) as [target|] eqn:Hnode.
  - destruct (track_class track) eqn:Hclass.
    1: rewrite (retarget_track_rotation _ _ _ Hnode Hclass) in Hstep.
    2: rewrite (retarget_track_position _ _ _ Hnode Hclass) in Hstep.
    3-6: rewrite (retarget_track_other _ _ target) in Hstep by (try done; by rewrite Hclass).
    all: cbv zeta in Hstep; injection Hstep as _ <-; by rewrite ?Hclass.
  - rewrite retarget_track_dropped in Hstep by done. by injection Hstep as _ <-.
Qed.

Lemma warning_bone_not_found track m :
  warning env track = Some m →
  ∃ bone rig, m = warn_bone_not_found bone rig ∨ m = warn_member_not_found bone rig.
Proof.
  unfold warning, bone_not_found. destruct (vrmNode env track); [done|].
  destruct (env_logWarnings env && _); [|done]. intros [= <-].
  destruct (vrmBoneName env track) as [[?|?]|]; eauto.
Qed.

Lemma warn_hips_height_not_in_warnings (ts : list KeyframeTrack) :
  warn_hips_height ∉ omap (warning env) ts.
Proof.
  intros (t & _ & Hw)%list_elem_of_omap.
  by destruct (warning_bone_not_found _ _ Hw) as (? & ? & [? | ?]).
Qed.

(** ** The loop over the tracks *)

Lemma retarget_tracks_Normal : ∀ ts st st' ts',
  retarget_tracks env st ts = (Normal st', ts') →
  tracks st `prefix_of` tracks st'
  ∧ length (tracks st') = length (tracks st) + length (List.filter (emits env) ts)
  ∧ console st' = console st ++ omap (warning env) ts
  ∧ ∀ j t, ts !! j = Some t →
      ∃ sj sj' t', retarget_track env sj t = (Normal sj', t')
                   ∧ ts' !! j = Some t'
                   ∧ tracks sj' `prefix_of` tracks st'.
Proof.
  induction ts as [|t ts IH]; intros st st' ts' Hloop.
  - injection Hloop as <- <-. cbn. rewrite app_nil_r, Nat.add_0_r.
    repeat split; try done.
  - cbn [retarget_tracks] in Hloop.
    destruct (retarget_track env st t) as [[s1|s1] t1] eqn:Hstep; [|done].
    destruct (retarget_tracks env s1 ts) as [r rest'] eqn:Hrest.
    injection Hloop as -> <-.
    destruct (IH _ _ _ Hrest) as (Hpre & Hlen & Hcon & Hidx).
    destruct (retarget_track_Normal _ _ _ _ Hstep) as (Htr & Hlen1 & Hcon1).
    repeat split.
    + etrans; [|exact Hpre]. rewrite Htr. by apply prefix_app_r.
    + rewrite Hlen, Hlen1. cbn [List.filter]. destruct (emits env t); cbn [length]; lia.
    + rewrite Hcon, Hcon1. simpl. destruct (warning env t); simpl.
      * by rewrite <- app_assoc.
      * by rewrite app_nil_r.
    + intros [|j] t0 Hj.
      * injection Hj as <-. by exists st, s1, t1.
      * cbn in Hj. destruct (Hidx j t0 Hj) as (sj & sj' & t' & ? & ? & ?).
        by exists sj, sj', t'.
Qed.

Lemma retarget_tracks_no_throw : ∀ ts st,
  (∀ t, t ∈ ts → emits env t = true → track_times t ≠ []) →
  ∃ st' ts', retarget_tracks env st ts = (Normal st', ts').
Proof.
  induction ts as [|t ts IH]; intros st Hne; [by eexists _, _|].
  cbn [retarget_tracks].
  destruct (retarget_track_no_throw st t) as (s1 & t1 & ->).
  { apply Hne. by left. }
  destruct (IH s1) as (st' & ts' & ->).
  { intros t0 Ht0. apply Hne. by right. }
  by eexists _, _.
Qed.

Lemma same_but_rotation_values_refl : ∀ ts : list KeyframeTrack,
  Forall2 same_but_rotation_values ts ts.
Proof. induction ts; constructor; by repeat split. Qed.

Lemma retarget_tracks_source : ∀ ts st r ts',
  retarget_tracks env st ts = (r, ts') →
  Forall2 same_but_rotation_values ts ts'.
Proof.
  induction ts as [|t ts IH]; intros st r ts' Hloop.
  - injection Hloop as _ <-. constructor.
  - cbn [retarget_tracks] in Hloop.
    destruct (retarget_track env st t) as [[s1|s1] t1] eqn:Hstep.
    + destruct (retarget_tracks env s1 ts) as [r' rest'] eqn:Hrest.
      injection Hloop as _ <-. constructor; [by eapply retarget_track_source | by eapply IH].
    + injection Hloop as _ <-.
      constructor; [by eapply retarget_track_source | apply same_but_rotation_values_refl].
Qed.

End track.

(** ** Tracks without an entry in the bone map *)

Lemma unmapped_dropped fbxAsset vrm options track :
  unmapped options track = true →
  emits (retarget_env fbxAsset vrm options) track = false
  ∧ warning (retarget_env fbxAsset vrm options) track = member_warning options track.
Proof.
  unfold member_warning. intros Hu. rewrite Hu. revert Hu.
  unfold unmapped, emits, warning, vrmNode, vrmBoneName, get_property.
  cbn [retarget_env env_boneMap env_vrm env_logWarnings].
  intros ->%bool_decide_eq_true.
  assert ((humanoid vrm ≫= λ h,
             getNormalizedBoneNode h
               (as_bone_name (if bool_decide (mixamoRigName track ∈ Object_prototype)
                              then Some (inherited_member (mixamoRigName track))
                              else None))) = None) as ->
    by (destruct (humanoid vrm); [|done]; by case_bool_decide).
  rewrite bool_decide_eq_false_2 by (by intros [? ?]).
  split; [done|]. rewrite andb_true_r.
  case_bool_decide; cbn; by destruct (option_logWarnings options).
Qed.

Lemma emits_mapped fbxAsset vrm options track :
  emits (retarget_env fbxAsset vrm options) track = true →
  unmapped options track = false
  ∧ warning (retarget_env fbxAsset vrm options) track = member_warning options track.
Proof.
  unfold member_warning, unmapped, emits, warning, vrmNode, vrmBoneName, get_property.
  cbn [retarget_env env_boneMap env_vrm].
  intros [[target Hnode]%bool_decide_eq_true _]%andb_true_iff. rewrite Hnode.
  assert (boneMap options !! mixamoRigName track ≠ None) as Hmap.
  { intros Hmap. rewrite Hmap in Hnode.
    destruct (humanoid vrm); [|done]. by case_bool_decide. }
  rewrite (bool_decide_eq_false_2 _ Hmap). by rewrite andb_false_r.
Qed.

Lemma unmapped_or_emitted fbxAsset vrm options : ∀ ts,
  (∀ t, t ∈ ts → unmapped options t = true
                 ∨ emits (retarget_env fbxAsset vrm options) t = true) →
  length (List.filter (emits (retarget_env fbxAsset vrm options)) ts)
  = length ts - length (List.filter (unmapped options) ts)
  ∧ length (List.filter (unmapped options) ts) ≤ length ts
  ∧ omap (warning (retarget_env fbxAsset vrm options)) ts
    = omap (member_warning options) ts.
Proof.
  induction ts as [|t ts IH]; intros Hall; [done|].
  destruct IH as (Hlen & Hle & Hwarn); [intros t0 Ht0; apply Hall; by right|].
  cbn [List.filter].
  change (omap ?f (t :: ts)) with (from_option (λ y, y :: omap f ts) (omap f ts) (f t)).
  rewrite Hwarn.
  destruct (Hall t) as [Hu|He]; [by left| |].
  - destruct (unmapped_dropped fbxAsset vrm options t Hu) as [-> ->].
    rewrite Hu. cbn [length]. repeat split; lia.
  - destruct (emits_mapped fbxAsset vrm options t He) as [-> ->].
    rewrite He. cbn [length]. repeat split; lia.
Qed.

(** No line is printed when no joint without an entry bears the name of
    an inherited member. *)
Lemma member_warning_None options : ∀ ts,
  (∀ t, t ∈ ts → unmapped options t = true → mixamoRigName t ∉ Object_prototype) →
  omap (member_warning options) ts = [].
Proof.
  induction ts as [|t ts IH]; intros Hall; [done|].
  change (omap ?f (t :: ts)) with (from_option (λ y, y :: omap f ts) (omap f ts) (f t)).
  rewrite IH by (intros t0 Ht0; apply Hall; by right).
  unfold member_warning.
  destruct (unmapped options t) eqn:Hu.
  - rewrite bool_decide_eq_false_2 by (apply Hall; [by left | done]).
    by rewrite andb_false_r.
  - by rewrite andb_false_r.
Qed.

(** ** The call *)

Lemma clip_tracks_new name duration ts :
  clip_tracks (new_AnimationClip name duration ts) = ts.
Proof. done. Qed.

Lemma is_negative_new_AnimationClip name duration ts :
  is_negative duration = false →
  new_AnimationClip name duration ts = mkClip name duration ts.
Proof. unfold new_AnimationClip. by intros ->. Qed.

Lemma findByName_from_lookup name : ∀ clips i n c,
  findByName_from i clips name = Some (n, c) →
  i ≤ n ∧ clips !! (n - i) = Some c.
Proof.
  induction clips as [|c0 clips IH]; intros i n c Hfind; [done|].
  cbn [findByName_from] in Hfind. case_decide.
  - injection Hfind as <- <-. by rewrite Nat.sub_diag.
  - destruct (IH _ _ _ Hfind) as [Hle Hlook]. split; [lia|].
    replace (n - i) with (S (n - S i)) by lia. exact Hlook.
Qed.

Lemma findByName_lookup clips name n c :
  findByName clips name = Some (n, c) → clips !! n = Some c.
Proof.
  intros [_ Hlook]%findByName_from_lookup. by rewrite Nat.sub_0_r in Hlook.
Qed.

Lemma findByName_injective fbxAsset options n clip n' clip' :
  findByName (animations fbxAsset) (option_animationClipName options) = Some (n, clip) →
  findByName (animations fbxAsset) (option_animationClipName options) = Some (n', clip') →
  n' = n ∧ clip' = clip.
Proof. intros -> [= <- <-]. done. Qed.

Lemma retargetAnimation_returned fbxAsset vrm options out :
  returned (retargetAnimation fbxAsset vrm options) = Some out →
  ∃ n clip st ts',
    findByName (animations fbxAsset) (option_animationClipName options) = Some (n, clip)
    ∧ not_number (vrmHipsY vrm) = false
    ∧ not_number (motionHipsHeight fbxAsset) = false
    ∧ retarget_tracks (retarget_env fbxAsset vrm options) initial_state (clip_tracks clip)
      = (Normal st, ts')
    ∧ out = new_AnimationClip "vrmAnimation" (clip_duration clip) (tracks st)
    ∧ printed (retargetAnimation fbxAsset vrm options) = console st
    ∧ animations (fbxAsset_after (retargetAnimation fbxAsset vrm options))
      = <[n := replace_tracks clip ts']> (animations fbxAsset).
Proof.
  unfold retargetAnimation.
  destruct (findByName _ _) as [[n clip]|]; [|done].
  destruct (not_number (vrmHipsY vrm)) eqn:Hv; [done|].
  destruct (not_number (motionHipsHeight fbxAsset)) eqn:Hm; [done|].
  cbn [orb].
  destruct (retarget_tracks _ _ _) as [[st|st] ts'] eqn:Hloop; [|done].
  cbn. intros [= <-]. by exists n, clip, st, ts'.
Qed.

Lemma retargetAnimation_Normal fbxAsset vrm options n clip st ts' :
  findByName (animations fbxAsset) (option_animationClipName options) = Some (n, clip) →
  not_number (vrmHipsY vrm) = false →
  not_number (motionHipsHeight fbxAsset) = false →
  retarget_tracks (retarget_env fbxAsset vrm options) initial_state (clip_tracks clip)
  = (Normal st, ts') →
  retargetAnimation fbxAsset vrm options =
    mkOutcome (Some (new_AnimationClip "vrmAnimation" (clip_duration clip) (tracks st)))
      (console st)
      (mkGroup (group_object fbxAsset) (group_parent fbxAsset)
         (<[n := replace_tracks clip ts']> (animations fbxAsset))).
Proof.
  intros Hfind Hv Hm Hloop. unfold retargetAnimation.
  by rewrite Hfind, Hv, Hm, Hloop.
Qed.

(** Every step of a call that returned a clip ran in some state of the
    loop, and left its tracks in the clip returned and its track in the
    asset. *)
Lemma returned_step fbxAsset vrm options out n clip j track :
  findByName (animations fbxAsset) (option_animationClipName options) = Some (n, clip) →
  returned (retargetAnimation fbxAsset vrm options) = Some out →
  clip_tracks clip !! j = Some track →
  ∃ sj sj' track' clip',
    retarget_track (retarget_env fbxAsset vrm options) sj track = (Normal sj', track')
    ∧ tracks sj' `prefix_of` clip_tracks out
    ∧ animations (fbxAsset_after (retargetAnimation fbxAsset vrm options)) !! n = Some clip'
    ∧ clip_tracks clip' !! j = Some track'.
Proof.
  intros Hfind Hret Hj.
  destruct (retargetAnimation_returned _ _ _ _ Hret)
    as (n' & clip' & st & ts' & Hfind' & _ & _ & Hloop & -> & _ & Hafter).
  destruct (findByName_injective _ _ _ _ _ _ Hfind Hfind') as [-> ->].
  destruct (retarget_tracks_Normal _ _ _ _ _ Hloop) as (_ & _ & _ & Hidx).
  destruct (Hidx j track Hj) as (sj & sj' & t' & Hstep & Hj' & Hpre).
  exists sj, sj', t', (replace_tracks clip ts'). repeat split; try done.
  rewrite Hafter. apply list_lookup_insert_eq.
  by eapply lookup_lt_Some, findByName_lookup.
Qed.

Lemma rotation_track_emitted fbxAsset vrm options out n clip j track target :
  findByName (animations fbxAsset) (option_animationClipName options) = Some (n, clip) →
  returned (retargetAnimation fbxAsset vrm options) = Some out →
  clip_tracks clip !! j = Some track →
  track_class track = QuaternionKeyframeTrack →
  vrmNode (retarget_env fbxAsset vrm options) track = Some target →
  ∃ i st clip',
    let values :=
      keyframes_map
        (parentRestWorldRotation (store_rest (retarget_env fbxAsset vrm options) st track))
        (restRotationInverse (store_rest (retarget_env fbxAsset vrm options) st track))
        (track_values track) in
    clip_tracks out !! i =
      Some (mkTrack QuaternionKeyframeTrack (output_name target track) (track_times track)
              (convert_rotation_values (is_meta0 vrm) values))
    ∧ animations (fbxAsset_after (retargetAnimation fbxAsset vrm options)) !! n = Some clip'
    ∧ clip_tracks clip' !! j =
        Some (mkTrack QuaternionKeyframeTrack (track_name track) (track_times track) values).
Proof.
  intros Hfind Hret Hj Hclass Hnode.
  destruct (returned_step _ _ _ _ _ _ _ _ Hfind Hret Hj)
    as (sj & sj' & t' & clip' & Hstep & Hpre & Hn & Hj').
  rewrite (retarget_track_rotation _ _ _ _ Hnode Hclass) in Hstep. cbv zeta in Hstep.
  injection Hstep as Hpush <-. apply push_track_Normal in Hpush as [_ ->].
  cbn [tracks] in Hpre. exists (length (tracks sj)), sj, clip'. cbv zeta.
  rewrite <- !retarget_rotation_values_map. split; [|split; [done|by rewrite <- Hclass]].
  eapply prefix_lookup_Some; [|exact Hpre].
  rewrite lookup_app_r by done. by rewrite Nat.sub_diag.
Qed.

Lemma position_track_emitted fbxAsset vrm options out n clip j track target :
  findByName (animations fbxAsset) (option_animationClipName options) = Some (n, clip) →
  returned (retargetAnimation fbxAsset vrm options) = Some out →
  clip_tracks clip !! j = Some track →
  track_class track = VectorKeyframeTrack →
  vrmNode (retarget_env fbxAsset vrm options) track = Some target →
  ∃ i,
    clip_tracks out !! i =
      Some (mkTrack VectorKeyframeTrack (output_name target track) (track_times track)
              (convert_position_values (is_meta0 vrm) (hipsPositionScale fbxAsset vrm)
                 (track_values track))).
Proof.
  intros Hfind Hret Hj Hclass Hnode.
  destruct (returned_step _ _ _ _ _ _ _ _ Hfind Hret Hj)
    as (sj & sj' & t' & _ & Hstep & Hpre & _).
  rewrite (retarget_track_position _ _ _ _ Hnode Hclass) in Hstep.
  injection Hstep as Hpush _. apply push_track_Normal in Hpush as [_ ->].
  cbn [tracks] in Hpre. exists (length (tracks sj)).
  eapply prefix_lookup_Some; [|exact Hpre].
  rewrite lookup_app_r by done. by rewrite Nat.sub_diag.
Qed.

(** What a call may change of the asset: the values of the rotation
    tracks of the clip it retargets, and nothing else. *)
Lemma source_asset_frame fbxAsset vrm options :
  let after := fbxAsset_after (retargetAnimation fbxAsset vrm options) in
  group_object after = group_object fbxAsset
  ∧ group_parent after = group_parent fbxAsset
  ∧ Forall2 (λ c c', clip_name c' = clip_name c
                     ∧ clip_duration c' = clip_duration c
                     ∧ Forall2 same_but_rotation_values (clip_tracks c) (clip_tracks c'))
            (animations fbxAsset) (animations after).
Proof.
  assert (∀ clips : list AnimationClip,
            Forall2 (λ c c', clip_name c' = clip_name c
                             ∧ clip_duration c' = clip_duration c
                             ∧ Forall2 same_but_rotation_values (clip_tracks c) (clip_tracks c'))
                    clips clips) as Hrefl.
  { induction clips; constructor; [|done].
    repeat split. apply same_but_rotation_values_refl. }
  cbv zeta. unfold retargetAnimation.
  destruct (findByName _ _) as [[n clip]|] eqn:Hfind; [|by repeat split].
  destruct (not_number _ || not_number _); [by repeat split|].
  destruct (retarget_tracks _ _ _) as [r ts'] eqn:Hloop.
  apply retarget_tracks_source in Hloop. apply findByName_lookup in Hfind.
  assert (Forall2 (λ c c', clip_name c' = clip_name c
                           ∧ clip_duration c' = clip_duration c
                           ∧ Forall2 same_but_rotation_values (clip_tracks c) (clip_tracks c'))
                  (animations fbxAsset)
                  (<[n := replace_tracks clip ts']> (animations fbxAsset))) as Hclips.
  { rewrite <- (list_insert_id (animations fbxAsset) n clip) at 1 by done.
    apply Forall2_insert; [apply Hrefl | by repeat split]. }
  by destruct r; repeat split.
Qed.

(** * The properties of the specification *)

(** ** Rotation tracks *)

(** C1 (the code does otherwise).  The root of the asset is the joint of
    the hips: it exists and has no parent, so that its rotation at rest is
    [R] and that of its parent is the identity.  The clip has a rotation
    track for the spine, then one for the hips.  The track of the hips is
    retargeted, and its keyframes are not [1 * q * R⁻¹]: they are
    [P * q * R⁻¹] with, for [P], the rotation at rest of the parent of the
    spine, which the track of the spine had left in the scratch
    quaternion.  And in a rig without a spine, where the joint of the track
    of the spine has no rotation at rest at all, that track is retargeted
    all the same. *)
Theorem parentless_joint_rotated_by_stale_rest_pose :
  let r := retargetAnimation sample_fbx_hips_root (sample_vrm "1") default_options in
  let R := getWorldQuaternion sample_hips in
  let q := keyframe 1 (track_values hips_quaternion) in
  getObjectByName sample_fbx_hips_root "mixamorigHips" = Some (sample_hips, None)
  ∧ spec_restWorldRotations sample_fbx_hips_root "mixamorigHips" = Some (R, identity)
  ∧ getObjectByName sample_fbx_hips_root "mixamorigSpine"
    = Some (sample_spine, Some sample_hips)
  ∧ (track_name <$> (returned r ≫= λ out, clip_tracks out !! 1))
    = Some "Normalized_Hips.quaternion"
  ∧ keyframe 1 <$> returned_values r 1
    = Some (multiplyQuaternions
              (multiplyQuaternions (getWorldQuaternion sample_hips) q) (invert R))
  ∧ keyframe 1 <$> returned_values r 1
    = Some (quat (1 # 2) (-17 # 50) (31 # 50) (1 # 2))
  ∧ multiplyQuaternions (multiplyQuaternions identity q) (invert R)
    = quat (1 # 10) (1 # 10) (7 # 10) (7 # 10)
  ∧ keyframe 1 <$> returned_values r 1
    ≠ Some (multiplyQuaternions (multiplyQuaternions identity q) (invert R))
  ∧ let r' := retargetAnimation sample_fbx_no_spine (sample_vrm "1") default_options in
    spec_restWorldRotations sample_fbx_no_spine "mixamorigSpine" = None
    ∧ (track_name <$> (returned r' ≫= λ out, clip_tracks out !! 1))
      = Some "Normalized_Spine.quaternion".
Proof. cbv zeta. repeat split; compute_done. Qed.


(** C2 (the code does otherwise).  The call overwrites the values of the
    rotation tracks of the clip it was given with their values before the
    correction for the coordinate convention: here the asset after the
    call differs from the asset before it, and a second call with the same
    asset object returns another clip than the first. *)
Theorem source_rotation_values_overwritten :
  let first := retargetAnimation sample_fbx_rotation_only (sample_vrm "1") default_options in
  animations (fbxAsset_after first) =
    [sample_clip
       [mkTrack QuaternionKeyframeTrack "mixamorigHips.quaternion" [of_Z 0; of_Z 1]
          [of_Q (-12 # 25); of_Q (-9 # 25); of_Q (12 # 25); of_Q (16 # 25);
           of_Q (1 # 50); of_Q (7 # 50); of_Q (49 # 50); of_Q (7 # 50)]]]
  ∧ animations (fbxAsset_after first) ≠ animations sample_fbx_rotation_only
  ∧ returned (retargetAnimation (fbxAsset_after first) (sample_vrm "1") default_options)
    ≠ returned first.
Proof. cbv zeta. repeat split; compute_done. Qed.

(** The same for every call: where C1 gives a keyframe [P * q * R⁻¹] of the
    clip returned, the call has written that keyframe over [q] in the
    track of the asset. *)
Lemma source_rotation_keyframes_rewritten
    fbxAsset vrm options out n clip j track target node parent :
  findByName (animations fbxAsset) (option_animationClipName options) = Some (n, clip) →
  returned (retargetAnimation fbxAsset vrm options) = Some out →
  clip_tracks clip !! j = Some track →
  track_class track = QuaternionKeyframeTrack →
  vrmNode (retarget_env fbxAsset vrm options) track = Some target →
  getObjectByName fbxAsset (mixamoRigName track) = Some (node, Some parent) →
  ∃ clip' track',
    animations (fbxAsset_after (retargetAnimation fbxAsset vrm options)) !! n = Some clip'
    ∧ clip_tracks clip' !! j = Some track'
    ∧ ∀ k, 4 * k + 4 ≤ length (track_values track) →
        keyframe k (track_values track') =
          multiplyQuaternions
            (multiplyQuaternions (getWorldQuaternion parent) (keyframe k (track_values track)))
            (invert (getWorldQuaternion node)).
Proof.
  intros Hfind Hret Hj Hclass Hnode Hrig.
  destruct (rotation_track_emitted _ _ _ _ _ _ _ _ _ Hfind Hret Hj Hclass Hnode)
    as (i & st & clip' & _ & Hn & Hj').
  unfold store_rest in Hj'. cbn [env_fbxAsset retarget_env] in Hj'. rewrite Hrig in Hj'.
  cbn [parentRestWorldRotation restRotationInverse] in Hj'.
  eexists clip', _. split; [exact Hn|]. split; [exact Hj'|].
  intros k Hk. by apply keyframe_keyframes_map.
Qed.

(** ** The scale of positions *)

(** C3, as the specification has it, fails: with an armature node between
    the root of the asset and the hips, the hips are 100 above the root in
    the world, and the code divides by their local height 90; and with the
    hips of the avatar below its scene the code takes the absolute value
    of the offset. *)
Lemma scale_not_ratio_of_world_offsets :
  (hipsPositionScale sample_fbx_armature (sample_vrm "1") = of_Q (3 # 2)
   ∧ spec_computeScale sample_fbx_armature (sample_vrm "1") = Some (of_Q (27 # 20))
   ∧ Some (hipsPositionScale sample_fbx_armature (sample_vrm "1"))
     ≠ spec_computeScale sample_fbx_armature (sample_vrm "1"))
  ∧ (hipsPositionScale sample_fbx (sample_vrm_at (-135) 0 "1") = of_Q (3 # 2)
     ∧ spec_computeScale sample_fbx (sample_vrm_at (-135) 0 "1") = Some (of_Q (-3 # 2))
     ∧ Some (hipsPositionScale sample_fbx (sample_vrm_at (-135) 0 "1"))
       ≠ spec_computeScale sample_fbx (sample_vrm_at (-135) 0 "1")).
Proof. repeat split; compute_done. Qed.

(** C3, amended.  In a call that returns a clip both rigs have their hips,
    and the scale is [|targetHipsY - targetRootY| / sourceHipsY]:
    [targetHipsY] and [targetRootY] the heights in the world of the hips of
    the avatar and of its scene, [sourceHipsY] the height of the hips of
    the source rig in the frame of their parent.  Every position track
    that is retargeted is scaled by it. *)
Theorem scale_is_target_world_height_over_source_local_height fbxAsset vrm options out :
  returned (retargetAnimation fbxAsset vrm options) = Some out →
  ∃ targetHips sourceHips sourceParent scale,
    (humanoid vrm ≫= λ h, getNormalizedBoneNode h (Some "hips")) = Some targetHips
    ∧ getObjectByName fbxAsset "mixamorigHips" = Some (sourceHips, sourceParent)
    ∧ scale = ndiv (Math_abs (nsub (vy (getWorldPosition targetHips))
                                   (vy (getWorldPosition (scene vrm)))))
                   (vy (obj_position sourceHips))
    ∧ hipsPositionScale fbxAsset vrm = scale
    ∧ ∀ n clip j track target,
        findByName (animations fbxAsset) (option_animationClipName options) = Some (n, clip) →
        clip_tracks clip !! j = Some track →
        track_class track = VectorKeyframeTrack →
        vrmNode (retarget_env fbxAsset vrm options) track = Some target →
        ∃ i, clip_tracks out !! i =
               Some (mkTrack VectorKeyframeTrack (output_name target track) (track_times track)
                       (convert_position_values (is_meta0 vrm) scale (track_values track))).
Proof.
  intros Hret.
  destruct (retargetAnimation_returned _ _ _ _ Hret) as (_ & _ & _ & _ & _ & Hv & Hm & _).
  destruct (humanoid vrm ≫= λ h, getNormalizedBoneNode h (Some "hips"))
    as [targetHips|] eqn:Ht; [|by unfold vrmHipsY in Hv; rewrite Ht in Hv].
  destruct (getObjectByName fbxAsset "mixamorigHips")
    as [[sourceHips sourceParent]|] eqn:Hs; [|by unfold motionHipsHeight in Hm; rewrite Hs in Hm].
  assert (hipsPositionScale fbxAsset vrm =
            ndiv (Math_abs (nsub (vy (getWorldPosition targetHips))
                                 (vy (getWorldPosition (scene vrm)))))
                 (vy (obj_position sourceHips))) as Hscale.
  { unfold hipsPositionScale, vrmHipsHeight, vrmHipsY, motionHipsHeight.
    by rewrite Ht, Hs. }
  exists targetHips, sourceHips, sourceParent,
    (ndiv (Math_abs (nsub (vy (getWorldPosition targetHips))
                          (vy (getWorldPosition (scene vrm)))))
          (vy (obj_position sourceHips))).
  split; [done|]. split; [done|]. split; [reflexivity|]. split; [exact Hscale|].
  intros n clip j track target Hfind Hj Hclass Hnode. rewrite <- Hscale.
  by eapply position_track_emitted.
Qed.

Lemma scale_is_target_world_height_over_source_local_height_witness :
  ∃ out, returned (retargetAnimation sample_fbx_armature (sample_vrm "1") default_options)
         = Some out
    ∧ hipsPositionScale sample_fbx_armature (sample_vrm "1")
      = ndiv (Math_abs (nsub (of_Z 135) (of_Z 0))) (of_Z 90).
Proof.
  assert (∃ out, returned (retargetAnimation sample_fbx_armature (sample_vrm "1")
                             default_options) = Some out) as [out Hout]
    by returns_some.
  exists out. split; [exact Hout|].
  destruct (scale_is_target_world_height_over_source_local_height
              sample_fbx_armature (sample_vrm "1") default_options out Hout)
    as (targetHips & sourceHips & sourceParent & scale & Ht & Hs & -> & Hscale & _).
  vm_compute in Ht. injection Ht as <-.
  vm_compute in Hs. injection Hs as <- _.
  exact Hscale.
Defined.

(** ** The coordinate convention of rotations *)

(** C4, as the specification has it, fails: for a VRM 0.x avatar the first
    keyframe of the hips comes out with its x and z negated, which is not
    the rotation before the correction with its w and y negated. *)
Lemma old_convention_does_not_negate_w_y :
  let r := retargetAnimation sample_fbx_rotation_only (sample_vrm "0") default_options in
  let before :=
    multiplyQuaternions
      (multiplyQuaternions (getWorldQuaternion sample_root)
                           (keyframe 0 (track_values hips_quaternion)))
      (invert (getWorldQuaternion sample_hips)) in
  before = quat (-12 # 25) (-9 # 25) (12 # 25) (16 # 25)
  ∧ keyframe 0 <$> returned_values r 0 = Some (quat (12 # 25) (-9 # 25) (-12 # 25) (16 # 25))
  ∧ keyframe 0 <$> returned_values r 0 ≠ Some (spec_negate_w_y before).
Proof. cbv zeta. repeat split; compute_done. Qed.

(** C4, amended.  For every rotation track that is retargeted, each
    keyframe of the track returned is the keyframe that the rotation step
    made (it is left in the track of the source) with its x and z
    components negated (the components at the even indices of the stored
    [x, y, z, w]) and y and w unchanged when the avatar has [metaVersion]
    '0', and is that keyframe unchanged otherwise.  When the joint of the
    track exists in the source rig below a parent, that keyframe is the
    rotation [P * q * R⁻¹]. *)
Theorem old_convention_negates_x_and_z
    fbxAsset vrm options out n clip j track target :
  findByName (animations fbxAsset) (option_animationClipName options) = Some (n, clip) →
  returned (retargetAnimation fbxAsset vrm options) = Some out →
  clip_tracks clip !! j = Some track →
  track_class track = QuaternionKeyframeTrack →
  vrmNode (retarget_env fbxAsset vrm options) track = Some target →
  ∃ i values clip' before,
    clip_tracks out !! i =
      Some (mkTrack QuaternionKeyframeTrack (output_name target track) (track_times track)
              values)
    ∧ animations (fbxAsset_after (retargetAnimation fbxAsset vrm options)) !! n = Some clip'
    ∧ clip_tracks clip' !! j =
        Some (mkTrack QuaternionKeyframeTrack (track_name track) (track_times track) before)
    ∧ length values = length before
    ∧ (∀ k, keyframe k values
            = if is_meta0 vrm then negate_x_z (keyframe k before) else keyframe k before)
    ∧ ∀ node parent,
        getObjectByName fbxAsset (mixamoRigName track) = Some (node, Some parent) →
        ∀ k, 4 * k + 4 ≤ length (track_values track) →
          keyframe k before =
            multiplyQuaternions
              (multiplyQuaternions (getWorldQuaternion parent)
                                   (keyframe k (track_values track)))
              (invert (getWorldQuaternion node)).
Proof.
  intros Hfind Hret Hj Hclass Hnode.
  destruct (rotation_track_emitted _ _ _ _ _ _ _ _ _ Hfind Hret Hj Hclass Hnode)
    as (i & st & clip' & Hi & Hn & Hj').
  eexists i, _, clip', _. split; [exact Hi|]. split; [exact Hn|]. split; [exact Hj'|].
  split; [|split].
  - unfold convert_rotation_values. by rewrite length_imap.
  - intros k. apply keyframe_convert_rotation_values.
  - intros node parent Hrig k Hk. unfold store_rest.
    cbn [env_fbxAsset retarget_env]. rewrite Hrig.
    cbn [parentRestWorldRotation restRotationInverse].
    by apply keyframe_keyframes_map.
Qed.

Lemma old_convention_negates_x_and_z_witness :
  ∃ out i values,
    returned (retargetAnimation sample_fbx (sample_vrm "0") default_options) = Some out
    ∧ clip_tracks out !! i =
        Some (mkTrack QuaternionKeyframeTrack "Normalized_Hips.quaternion"
                [of_Z 0; of_Z 1] values)
    ∧ keyframe 0 values =
        negate_x_z
          (multiplyQuaternions
             (multiplyQuaternions (getWorldQuaternion sample_root)
                                  (quat 0 0 0 1))
             (invert (getWorldQuaternion sample_hips))).
Proof.
  assert (∃ out, returned (retargetAnimation sample_fbx (sample_vrm "0") default_options)
                 = Some out) as [out Hout] by returns_some.
  destruct (old_convention_negates_x_and_z sample_fbx (sample_vrm "0") default_options
              out 0 (sample_clip [hips_quaternion; hips_position; spine_quaternion])
              0 hips_quaternion (vrm_node "Normalized_Hips" 135))
    as (i & values & clip' & before & Hi & _ & _ & _ & Hk & Hrest);
    [reflexivity | exact Hout | reflexivity | reflexivity | vm_compute; reflexivity |].
  exists out, i, values. split; [exact Hout|]. split; [exact Hi|].
  rewrite (Hk 0).
  rewrite (Hrest sample_hips sample_root); [reflexivity | vm_compute; reflexivity |].
  vm_compute. lia.
Defined.

(** ** Tracks that are dropped *)

(** C5, as the specification has it, fails: the eye of the Mixamo rig has
    no entry in the bone map, its track is dropped, and nothing is
    printed, with [logWarnings] on. *)
Lemma unmapped_bone_prints_no_warning :
  let r := retargetAnimation sample_fbx_eye (sample_vrm "1") default_options in
  option_logWarnings default_options = true
  ∧ List.filter (unmapped default_options) [hips_quaternion; eye_quaternion] = [eye_quaternion]
  ∧ (length ∘ clip_tracks) <$> returned r = Some 1
  ∧ printed r = []
  ∧ length (printed r)
    ≠ length (List.filter (unmapped default_options) [hips_quaternion; eye_quaternion]).
Proof. cbv zeta. repeat split; compute_done. Qed.

(** C5, amended.  When the clip is found and the scale is defined, and
    every track of the clip either has a joint without an entry in the
    merged bone map or is retargeted (its bone has a joint in the avatar, it
    is a rotation or a position track and it has keyframes), the call
    returns a clip with as many tracks as the source clip has, less those
    of the joints without an entry; and it prints no warning for them
    when none of these joints bears the name of a member that the bone map
    inherits from [Object.prototype].  (Whatever their names, the lines
    printed are those of [member_warning].) *)
Theorem unmapped_tracks_dropped_without_warning fbxAsset vrm options n clip :
  findByName (animations fbxAsset) (option_animationClipName options) = Some (n, clip) →
  not_number (vrmHipsY vrm) = false →
  not_number (motionHipsHeight fbxAsset) = false →
  (∀ track, track ∈ clip_tracks clip →
     unmapped options track = true
     ∨ (emits (retarget_env fbxAsset vrm options) track = true ∧ track_times track ≠ [])) →
  ∃ out,
    returned (retargetAnimation fbxAsset vrm options) = Some out
    ∧ length (clip_tracks out)
      = length (clip_tracks clip) - length (List.filter (unmapped options) (clip_tracks clip))
    ∧ printed (retargetAnimation fbxAsset vrm options)
      = omap (member_warning options) (clip_tracks clip)
    ∧ ((∀ track, track ∈ clip_tracks clip → unmapped options track = true →
          mixamoRigName track ∉ Object_prototype) →
       printed (retargetAnimation fbxAsset vrm options) = []).
Proof.
  intros Hfind Hv Hm Hall.
  destruct (retarget_tracks_no_throw (retarget_env fbxAsset vrm options) (clip_tracks clip)
              initial_state) as (st & ts' & Hloop).
  { intros t Ht He. destruct (Hall t Ht) as [Hu|[_ ?]]; [|done].
    destruct (unmapped_dropped fbxAsset vrm options t Hu) as [He' _]. congruence. }
  rewrite (retargetAnimation_Normal _ _ _ _ _ _ _ Hfind Hv Hm Hloop). cbn [returned printed].
  destruct (retarget_tracks_Normal _ _ _ _ _ Hloop) as (_ & Hlen & Hcon & _).
  destruct (unmapped_or_emitted fbxAsset vrm options (clip_tracks clip))
    as (Hcount & _ & Hwarn); [intros t Ht; destruct (Hall t Ht) as [|[? _]]; auto|].
  eexists. split; [done|]. rewrite clip_tracks_new, Hlen, Hcon, Hwarn, Hcount.
  split; [done|]. split; [done|]. intros Hnames. by apply member_warning_None.
Qed.

Lemma unmapped_tracks_dropped_without_warning_witness :
  ∃ out,
    returned (retargetAnimation sample_fbx_eye (sample_vrm "1") default_options) = Some out
    ∧ length (clip_tracks out) = 2 - 1
    ∧ printed (retargetAnimation sample_fbx_eye (sample_vrm "1") default_options) = [].
Proof.
  destruct (unmapped_tracks_dropped_without_warning sample_fbx_eye (sample_vrm "1")
              default_options 0 (sample_clip [hips_quaternion; eye_quaternion]))
    as (out & Hout & Hlen & _ & Hprinted);
    [reflexivity | vm_compute; reflexivity | vm_compute; reflexivity | |].
  - intros track [->|[->|[]%elem_of_nil]%elem_of_cons]%elem_of_cons.
    + right. split; [vm_compute; reflexivity | discriminate].
    + left. vm_compute. reflexivity.
  - exists out. split; [exact Hout|]. split; [exact Hlen|]. apply Hprinted.
    intros track [->|[->|[]%elem_of_nil]%elem_of_cons]%elem_of_cons _;
      vm_compute; intros Hin; by repeat (apply elem_of_cons in Hin as [?|Hin]; [done|]);
      apply elem_of_nil in Hin.
Defined.

(** The joint of a track may bear the name of an inherited member, such as
    [constructor]: the look-up in the bone map then finds the member, the
    track is dropped, and, with [logWarnings] on, the line about a bone that
    is not found is printed with the member for the bone. *)
Lemma inherited_member_is_looked_up :
  let r := retargetAnimation sample_fbx_constructor (sample_vrm "1") default_options in
  List.filter (unmapped default_options)
    [hips_quaternion; eye_quaternion; constructor_quaternion]
  = [eye_quaternion; constructor_quaternion]
  ∧ (length ∘ clip_tracks) <$> returned r = Some 1
  ∧ printed r = [warn_member_not_found "constructor" "constructor"].
Proof. cbv zeta. repeat split; compute_done. Qed.

(** C9.  A track whose bone is mapped to a joint of the avatar and which
    is neither a rotation nor a position track is dropped in silence: its
    step of the loop ends normally and leaves the array of tracks, the
    console and the track itself as they were, and the clip returned has
    one track for each track that is retargeted and no other, the lines
    printed being those of the bones without a joint in the avatar. *)
Theorem other_track_classes_dropped_silently
    fbxAsset vrm options out n clip j track target :
  findByName (animations fbxAsset) (option_animationClipName options) = Some (n, clip) →
  returned (retargetAnimation fbxAsset vrm options) = Some out →
  clip_tracks clip !! j = Some track →
  vrmNode (retarget_env fbxAsset vrm options) track = Some target →
  is_retargeted_class (track_class track) = false →
  (∀ st, ∃ st',
     retarget_track (retarget_env fbxAsset vrm options) st track = (Normal st', track)
     ∧ tracks st' = tracks st ∧ console st' = console st)
  ∧ emits (retarget_env fbxAsset vrm options) track = false
  ∧ warning (retarget_env fbxAsset vrm options) track = None
  ∧ length (clip_tracks out)
    = length (List.filter (emits (retarget_env fbxAsset vrm options)) (clip_tracks clip))
  ∧ printed (retargetAnimation fbxAsset vrm options)
    = omap (warning (retarget_env fbxAsset vrm options)) (clip_tracks clip).
Proof.
  intros Hfind Hret Hj Hnode Hclass.
  split; [|split; [|split]].
  - intros st. eexists. by rewrite (retarget_track_other _ _ _ _ Hnode Hclass).
  - unfold emits. by rewrite Hclass, andb_false_r.
  - unfold warning. by rewrite Hnode.
  - destruct (retargetAnimation_returned _ _ _ _ Hret)
      as (n' & clip' & st & ts' & Hfind' & _ & _ & Hloop & -> & -> & _).
    destruct (findByName_injective _ _ _ _ _ _ Hfind Hfind') as [-> ->].
    destruct (retarget_tracks_Normal _ _ _ _ _ Hloop) as (_ & Hlen & Hcon & _).
    by rewrite clip_tracks_new, Hlen, Hcon.
Qed.

Lemma other_track_classes_dropped_silently_witness :
  ∃ out,
    returned (retargetAnimation sample_fbx_opacity (sample_vrm "1") default_options) = Some out
    ∧ length (clip_tracks out) = 1
    ∧ printed (retargetAnimation sample_fbx_opacity (sample_vrm "1") default_options) = [].
Proof.
  assert (∃ out, returned (retargetAnimation sample_fbx_opacity (sample_vrm "1")
                             default_options) = Some out) as [out Hout]
    by returns_some.
  destruct (other_track_classes_dropped_silently sample_fbx_opacity (sample_vrm "1")
              default_options out 0 (sample_clip [hips_quaternion; hips_opacity])
              1 hips_opacity (vrm_node "Normalized_Hips" 135))
    as (_ & _ & _ & Hlen & Hprinted);
    [reflexivity | exact Hout | reflexivity | vm_compute; reflexivity | reflexivity |].
  exists out. split; [exact Hout|]. split; [exact Hlen | exact Hprinted].
Defined.

(** C8 (the code does otherwise).  The clip has a rotation track for the
    spine, the source rig has no spine, and the avatar has one.  The track
    is not skipped: the clip returned has a track for the spine of the
    avatar, and its keyframe is the keyframe of the source turned by the
    rest rotations of the hips and of their parent, which the track of the
    hips had left in the scratch quaternions. *)
Theorem missing_source_joint_retargeted_with_stale_rest_pose :
  let r := retargetAnimation sample_fbx_no_spine (sample_vrm "1") default_options in
  getObjectByName sample_fbx_no_spine "mixamorigSpine" = None
  ∧ clip_tracks <$> returned r =
      Some [mkTrack QuaternionKeyframeTrack "Normalized_Hips.quaternion" [of_Z 0; of_Z 1]
              [of_Q (-12 # 25); of_Q (-9 # 25); of_Q (12 # 25); of_Q (16 # 25);
               of_Q (1 # 50); of_Q (7 # 50); of_Q (49 # 50); of_Q (7 # 50)];
            mkTrack QuaternionKeyframeTrack "Normalized_Spine.quaternion" [of_Z 0]
              [of_Q (1 # 50); of_Q (7 # 50); of_Q (49 # 50); of_Q (7 # 50)]]
  ∧ keyframe 0 <$> returned_values r 1 =
      Some (multiplyQuaternions
              (multiplyQuaternions (getWorldQuaternion sample_root_no_spine)
                                   (keyframe 0 (track_values spine_quaternion)))
              (invert (getWorldQuaternion sample_hips_alone)))
  ∧ printed r = [].
Proof. cbv zeta. repeat split; compute_done. Qed.

(** The same for every call: a rotation track whose bone is mapped to a
    joint of the avatar and whose own joint is missing from the source rig
    is in the clip returned, turned by the two scratch quaternions as some
    earlier step of the loop left them. *)
Lemma missing_source_joint_still_retargeted
    fbxAsset vrm options out n clip j track target :
  findByName (animations fbxAsset) (option_animationClipName options) = Some (n, clip) →
  returned (retargetAnimation fbxAsset vrm options) = Some out →
  clip_tracks clip !! j = Some track →
  track_class track = QuaternionKeyframeTrack →
  vrmNode (retarget_env fbxAsset vrm options) track = Some target →
  getObjectByName fbxAsset (mixamoRigName track) = None →
  ∃ i st,
    clip_tracks out !! i =
      Some (mkTrack QuaternionKeyframeTrack (output_name target track) (track_times track)
              (convert_rotation_values (is_meta0 vrm)
                 (keyframes_map (parentRestWorldRotation st) (restRotationInverse st)
                    (track_values track)))).
Proof.
  intros Hfind Hret Hj Hclass Hnode Hrig.
  destruct (rotation_track_emitted _ _ _ _ _ _ _ _ _ Hfind Hret Hj Hclass Hnode)
    as (i & st & _ & Hi & _).
  unfold store_rest in Hi. cbn [env_fbxAsset retarget_env] in Hi. rewrite Hrig in Hi.
  by exists i, st.
Qed.

(** ** The failure of the scale *)

(** C6, as the specification has it, fails in both directions.  With the
    hips of the avatar at the height of its scene the hip height that the
    code computes is zero, and the call returns a clip; with the hips of
    the avatar at height zero and its scene 135 below, both rigs have their
    hips and both hip heights are defined and not zero, and the call
    returns nothing. *)
Lemma scale_failure_is_not_a_zero_height :
  (spec_ScaleUndefined sample_fbx_rotation_only (sample_vrm_at 135 135 "1") = true
   ∧ vrmHipsHeight (sample_vrm_at 135 135 "1") = of_Z 0
   ∧ is_Some (returned (retargetAnimation sample_fbx_rotation_only
                          (sample_vrm_at 135 135 "1") default_options)))
  ∧ (spec_ScaleUndefined sample_fbx_rotation_only (sample_vrm_at 0 (-135) "1") = false
     ∧ vrmHipsHeight (sample_vrm_at 0 (-135) "1") = of_Z 135
     ∧ is_Some (findByName (animations sample_fbx_rotation_only)
                           (option_animationClipName default_options))
     ∧ retargetAnimation sample_fbx_rotation_only (sample_vrm_at 0 (-135) "1") default_options
       = mkOutcome None [warn_hips_height] sample_fbx_rotation_only).
Proof. repeat split; compute_done. Qed.

(** C6, amended.  When the clip is found, the guard of the scale looks at
    two numbers, the height in the world of the hips of the avatar and the
    height of the hips of the source rig in the frame of their parent.
    When one of them is [undefined] (the rig has no hips), zero or [NaN],
    the call returns nothing, prints its one warning and leaves the asset
    as it was, whatever the tracks of the clip are.  Otherwise (and when no
    retargeted track lacks keyframes) the call returns a clip and does not
    print that warning. *)
Theorem scale_guard_aborts_the_call fbxAsset vrm options n clip :
  findByName (animations fbxAsset) (option_animationClipName options) = Some (n, clip) →
  (falsy (vrmHipsY vrm) ∨ falsy (motionHipsHeight fbxAsset) →
   retargetAnimation fbxAsset vrm options
   = mkOutcome None (if option_logWarnings options then [warn_hips_height] else []) fbxAsset)
  ∧ (¬ (falsy (vrmHipsY vrm) ∨ falsy (motionHipsHeight fbxAsset)) →
     (∀ track, track ∈ clip_tracks clip →
        emits (retarget_env fbxAsset vrm options) track = true → track_times track ≠ []) →
     is_Some (returned (retargetAnimation fbxAsset vrm options))
     ∧ warn_hips_height ∉ printed (retargetAnimation fbxAsset vrm options)).
Proof.
  intros Hfind. split.
  - intros Hfalsy. unfold retargetAnimation. rewrite Hfind.
    assert (not_number (vrmHipsY vrm) || not_number (motionHipsHeight fbxAsset) = true) as ->;
      [|done].
    apply orb_true_iff. by rewrite !not_number_true.
  - intros Hnot Hne.
    assert (not_number (vrmHipsY vrm) = false) as Hv
      by (apply not_number_false; tauto).
    assert (not_number (motionHipsHeight fbxAsset) = false) as Hm
      by (apply not_number_false; tauto).
    destruct (retarget_tracks_no_throw (retarget_env fbxAsset vrm options) (clip_tracks clip)
                initial_state Hne) as (st & ts' & Hloop).
    rewrite (retargetAnimation_Normal _ _ _ _ _ _ _ Hfind Hv Hm Hloop). cbn [returned printed].
    split; [eauto|].
    destruct (retarget_tracks_Normal _ _ _ _ _ Hloop) as (_ & _ & -> & _).
    apply warn_hips_height_not_in_warnings.
Qed.

Lemma scale_guard_aborts_the_call_witness :
  retargetAnimation sample_fbx_rotation_only (sample_vrm_at 0 (-135) "1") default_options
  = mkOutcome None [warn_hips_height] sample_fbx_rotation_only
  ∧ is_Some (returned (retargetAnimation sample_fbx_rotation_only (sample_vrm_at 135 135 "1")
                         default_options)).
Proof.
  split.
  - apply (scale_guard_aborts_the_call sample_fbx_rotation_only (sample_vrm_at 0 (-135) "1")
             default_options 0 (sample_clip [hips_quaternion]) eq_refl).
    left. right. right. vm_compute. reflexivity.
  - apply (scale_guard_aborts_the_call sample_fbx_rotation_only (sample_vrm_at 135 135 "1")
             default_options 0 (sample_clip [hips_quaternion]) eq_refl).
    + intros [[H|[H|H]]|[H|[H|H]]]; vm_compute in H; discriminate H.
    + intros track [->|[]%elem_of_nil]%elem_of_cons _. discriminate.
Defined.

(** ** Position tracks *)

(** C7.  In a call that returns a clip, a position track whose bone is
    mapped to a joint of the avatar gives a position track of the returned
    clip with the same times, in which every sample is the sample of the
    source with each component multiplied by the scale and, for an avatar
    with [metaVersion] '0', x and z negated and y not.  With the hips of the
    source at 90 and a hip height of 135 for the avatar the scale is 1.5,
    and the sample (0, 10, 0) becomes (0, 15, 0) under both conventions. *)
Theorem position_samples_scaled fbxAsset vrm options out n clip j track target :
  findByName (animations fbxAsset) (option_animationClipName options) = Some (n, clip) →
  returned (retargetAnimation fbxAsset vrm options) = Some out →
  clip_tracks clip !! j = Some track →
  track_class track = VectorKeyframeTrack →
  vrmNode (retarget_env fbxAsset vrm options) track = Some target →
  ∃ i values,
    clip_tracks out !! i =
      Some (mkTrack VectorKeyframeTrack (output_name target track) (track_times track) values)
    ∧ length values = length (track_values track)
    ∧ (∀ k v, position_sample k (track_values track) = Some v →
         let s := hipsPositionScale fbxAsset vrm in
         position_sample k values =
           Some (mkVector3 (if is_meta0 vrm then nneg (nmul (vx v) s) else nmul (vx v) s)
                           (nmul (vy v) s)
                           (if is_meta0 vrm then nneg (nmul (vz v) s) else nmul (vz v) s)))
    ∧ (motionHipsHeight fbxAsset = Some (of_Z 90) →
       vrmHipsHeight vrm = of_Z 135 →
       hipsPositionScale fbxAsset vrm = of_Q (3 # 2)
       ∧ (track_values track = [of_Z 0; of_Z 10; of_Z 0] →
          values = [of_Z 0; of_Z 15; of_Z 0])).
Proof.
  intros Hfind Hret Hj Hclass Hnode.
  destruct (position_track_emitted _ _ _ _ _ _ _ _ _ Hfind Hret Hj Hclass Hnode) as (i & Hi).
  eexists i, _. split; [exact Hi|]. split; [apply length_imap|]. split.
  - intros k v Hk. by apply position_sample_convert.
  - intros Hsource Htarget.
    assert (hipsPositionScale fbxAsset vrm = of_Q (3 # 2)) as Hscale.
    { unfold hipsPositionScale. rewrite Hsource, Htarget. compute_done. }
    split; [exact Hscale|]. intros ->. rewrite Hscale.
    destruct (is_meta0 vrm); compute_done.
Qed.

Lemma position_samples_scaled_witness :
  ∃ out i,
    returned (retargetAnimation sample_fbx (sample_vrm "0") default_options) = Some out
    ∧ clip_tracks out !! i =
        Some (mkTrack VectorKeyframeTrack "Normalized_Hips.position" [of_Z 0]
                [of_Z 0; of_Z 15; of_Z 0])
    ∧ hipsPositionScale sample_fbx (sample_vrm "0") = of_Q (3 # 2).
Proof.
  assert (∃ out, returned (retargetAnimation sample_fbx (sample_vrm "0") default_options)
                 = Some out) as [out Hout] by returns_some.
  destruct (position_samples_scaled sample_fbx (sample_vrm "0") default_options
              out 0 (sample_clip [hips_quaternion; hips_position; spine_quaternion])
              1 hips_position (vrm_node "Normalized_Hips" 135))
    as (i & values & Hi & _ & _ & Hexample);
    [reflexivity | exact Hout | reflexivity | reflexivity | vm_compute; reflexivity |].
  destruct Hexample as [Hscale Hvalues]; [vm_compute; reflexivity | compute_done |].
  exists out, i. split; [exact Hout|]. split; [|exact Hscale].
  rewrite <- (Hvalues eq_refl). exact Hi.
Defined.

(** ** The clip returned *)

(** C10, as the specification has it, fails: the source clip has the
    duration -1, and the clip returned has the duration 1, the time of the
    last keyframe of its tracks. *)
Lemma negative_source_duration_is_replaced :
  let r := retargetAnimation sample_fbx_negative_duration (sample_vrm "1") default_options in
  (clip_duration ∘ snd) <$>
    findByName (animations sample_fbx_negative_duration)
               (option_animationClipName default_options) = Some (of_Z (-1))
  ∧ clip_name <$> returned r = Some "vrmAnimation"
  ∧ clip_duration <$> returned r = Some (of_Z 1)
  ∧ clip_duration <$> returned r ≠ Some (of_Z (-1)).
Proof. cbv zeta. repeat split; compute_done. Qed.

(** C10, amended.  The clip that a call returns is named 'vrmAnimation',
    whatever the name of the source clip and the option [animationClipName]
    are.  It has the duration of the source clip when that is not negative;
    when it is negative, the constructor of the clip computes the duration
    from the tracks returned: the largest of the times of their last
    keyframes, and 0 when there is no track. *)
Theorem returned_clip_name_and_duration fbxAsset vrm options out n clip :
  findByName (animations fbxAsset) (option_animationClipName options) = Some (n, clip) →
  returned (retargetAnimation fbxAsset vrm options) = Some out →
  clip_name out = "vrmAnimation"
  ∧ clip_duration out
    = if is_negative (clip_duration clip) then resetDuration (clip_tracks out)
      else clip_duration clip.
Proof.
  intros Hfind Hret.
  destruct (retargetAnimation_returned _ _ _ _ Hret)
    as (n' & clip' & st & ts' & Hfind' & _ & _ & _ & -> & _).
  by destruct (findByName_injective _ _ _ _ _ _ Hfind Hfind') as [-> ->].
Qed.

Lemma returned_clip_name_and_duration_witness :
  ∃ out,
    returned (retargetAnimation sample_fbx_negative_duration (sample_vrm "1")
                default_options) = Some out
    ∧ clip_name out = "vrmAnimation"
    ∧ clip_duration out = resetDuration (clip_tracks out).
Proof.
  assert (∃ out, returned (retargetAnimation sample_fbx_negative_duration (sample_vrm "1")
                             default_options) = Some out) as [out Hout]
    by returns_some.
  exists out. split; [exact Hout|].
  apply (returned_clip_name_and_duration sample_fbx_negative_duration (sample_vrm "1")
           default_options out 0
           (mkClip "mixamo.com" (of_Z (-1)) [hips_quaternion; hips_position]));
    [reflexivity | exact Hout].
Defined.

(** * Further properties of the code *)

(** ** The clip that is not there *)

Lemma findByName_from_None name : ∀ clips i,
  findByName_from i clips name = None ↔ ∀ c, c ∈ clips → clip_name c ≠ name.
Proof.
  induction clips as [|c0 clips IH]; intros i; cbn [findByName_from].
  - split; [by intros _ c ?%elem_of_nil | done].
  - case_decide as Hname.
    + split; [done|]. intros Hall. destruct (Hall c0); [by left | done].
    + rewrite IH. split.
      * intros Hall c [->|?]%elem_of_cons; auto.
      * intros Hall c ?. apply Hall. by right.
Qed.

(** X1.  When no clip of the asset has the name asked for (by default
    'mixamo.com'), the call returns nothing, prints its one warning when
    [logWarnings] is on, and leaves the asset as it was. *)
Theorem clip_not_found fbxAsset vrm options :
  (∀ c, c ∈ animations fbxAsset → clip_name c ≠ option_animationClipName options) →
  retargetAnimation fbxAsset vrm options =
    mkOutcome None
      (if option_logWarnings options
       then [warn_clip_not_found (option_animationClipName options)] else [])
      fbxAsset.
Proof.
  intros Hall. unfold retargetAnimation, findByName.
  by rewrite (proj2 (findByName_from_None _ _ 0) Hall).
Qed.

Lemma clip_not_found_witness :
  retargetAnimation sample_fbx (sample_vrm "1") take_001_options =
    mkOutcome None [warn_clip_not_found "Take 001"] sample_fbx.
Proof.
  apply (clip_not_found sample_fbx (sample_vrm "1") take_001_options).
  intros c [->|[]%elem_of_nil]%elem_of_cons. discriminate.
Defined.

(** ** Steps that throw *)

Lemma push_track_Thrown st c name prop times values st' :
  push_track st c name prop times values = Thrown st' → times = [] ∧ st' = st.
Proof.
  unfold push_track, new_KeyframeTrack. case_decide; [|done]. by intros [= <-].
Qed.

Lemma push_track_empty st c name prop values :
  push_track st c name prop [] values = Thrown st.
Proof. done. Qed.

Lemma retarget_track_throws env st track :
  emits env track = true → track_times track = [] →
  ∃ st' track', retarget_track env st track = (Thrown st', track')
                ∧ console st' = console st.
Proof.
  unfold emits. intros [[target Hnode]%bool_decide_eq_true Hclass]%andb_true_iff Htimes.
  destruct (track_class track) eqn:Hc; try done.
  - rewrite (retarget_track_rotation _ _ _ _ Hnode Hc). cbv zeta.
    rewrite Htimes, push_track_empty. by eexists _, _.
  - rewrite (retarget_track_position _ _ _ _ Hnode Hc).
    rewrite Htimes, push_track_empty. by eexists _, _.
Qed.

Lemma retarget_track_console env st track r track' :
  retarget_track env st track = (r, track') →
  console (completion_state r) =
    console st ++ match r with Normal _ => option_list (warning env track) | Thrown _ => [] end.
Proof.
  intros Hstep. destruct r as [st'|st'].
  - cbn. by destruct (retarget_track_Normal _ _ _ _ _ Hstep) as (_ & _ & ->).
  - cbn. rewrite app_nil_r.
    destruct (vrmNode env track) as [target|] eqn:Hnode.
    + destruct (track_class track) eqn:Hclass.
      1: rewrite (retarget_track_rotation _ _ _ _ Hnode Hclass) in Hstep.
      2: rewrite (retarget_track_position _ _ _ _ Hnode Hclass) in Hstep.
      3-6: rewrite (retarget_track_other _ _ _ target) in Hstep
        by (try done; by rewrite Hclass).
      all: cbv zeta in Hstep; injection Hstep as Hpush _; try done.
      all: by apply push_track_Thrown in Hpush as [_ ->].
    + by rewrite retarget_track_dropped in Hstep.
Qed.

Lemma retarget_tracks_throws env : ∀ ts st,
  (∃ t, t ∈ ts ∧ emits env t = true ∧ track_times t = []) →
  ∃ st' ts', retarget_tracks env st ts = (Thrown st', ts').
Proof.
  induction ts as [|t ts IH]; intros st (t0 & Hin & He & Ht).
  - by apply elem_of_nil in Hin.
  - cbn [retarget_tracks].
    destruct (retarget_track env st t) as [[s1|s1] t1] eqn:Hstep; [|by eexists _, _].
    apply elem_of_cons in Hin as [->|Hin].
    + destruct (retarget_track_throws env st t He Ht) as (? & ? & Hthrow & _). congruence.
    + destruct (IH s1) as (st' & ts' & ->); [by exists t0|]. by eexists _, _.
Qed.

Lemma retarget_tracks_silent env : ∀ ts st r ts',
  env_logWarnings env = false →
  retarget_tracks env st ts = (r, ts') →
  console (completion_state r) = console st.
Proof.
  intros ts st r ts' Hlog. revert st r ts'.
  assert (∀ t, warning env t = None) as Hwarn.
  { intros t. unfold warning. rewrite Hlog. by destruct (vrmNode env t). }
  induction ts as [|t ts IH]; intros st r ts' Hloop.
  - by injection Hloop as <- _.
  - cbn [retarget_tracks] in Hloop.
    destruct (retarget_track env st t) as [r1 t1] eqn:Hstep.
    apply retarget_track_console in Hstep. rewrite Hwarn in Hstep.
    destruct r1 as [s1|s1]; cbn in Hstep; rewrite app_nil_r in Hstep.
    + destruct (retarget_tracks env s1 ts) as [r' rest'] eqn:Hrest.
      injection Hloop as <- _. rewrite <- Hstep. by eapply IH.
    + by injection Hloop as <- _.
Qed.

(** ** When a call returns a clip *)

(** X2.  A call returns a clip exactly when the asset has a clip of the
    name asked for, the guard of the scale passes (both rigs have their
    hips, and neither the height in the world of the hips of the avatar nor
    the local height of the hips of the source is zero or [NaN]), and
    every track that the loop makes a track for has keyframes. *)
Theorem returns_clip_iff fbxAsset vrm options :
  is_Some (returned (retargetAnimation fbxAsset vrm options)) ↔
  ∃ n clip,
    findByName (animations fbxAsset) (option_animationClipName options) = Some (n, clip)
    ∧ ¬ falsy (vrmHipsY vrm)
    ∧ ¬ falsy (motionHipsHeight fbxAsset)
    ∧ ∀ track, track ∈ clip_tracks clip →
        emits (retarget_env fbxAsset vrm options) track = true → track_times track ≠ [].
Proof.
  split.
  - intros [out Hret].
    destruct (retargetAnimation_returned _ _ _ _ Hret)
      as (n & clip & st & ts' & Hfind & Hv & Hm & Hloop & _).
    exists n, clip. rewrite <- !not_number_false. repeat split; try done.
    intros t Hin He Ht.
    destruct (retarget_tracks_throws (retarget_env fbxAsset vrm options) (clip_tracks clip)
                initial_state) as (? & ? & Hthrow); [by exists t | congruence].
  - intros (n & clip & Hfind & Hv%not_number_false & Hm%not_number_false & Hne).
    destruct (retarget_tracks_no_throw _ _ initial_state Hne) as (st & ts' & Hloop).
    rewrite (retargetAnimation_Normal _ _ _ _ _ _ _ Hfind Hv Hm Hloop). by eexists.
Qed.

(** X3.  When a track that the loop makes a track for has no keyframes,
    the constructor of the track throws: the call returns nothing, and the
    last line it prints, with [logWarnings] on, is its error line. *)
Theorem track_without_keyframes_fails_the_call fbxAsset vrm options n clip track :
  findByName (animations fbxAsset) (option_animationClipName options) = Some (n, clip) →
  ¬ falsy (vrmHipsY vrm) →
  ¬ falsy (motionHipsHeight fbxAsset) →
  track ∈ clip_tracks clip →
  emits (retarget_env fbxAsset vrm options) track = true →
  track_times track = [] →
  returned (retargetAnimation fbxAsset vrm options) = None
  ∧ (option_logWarnings options = true →
     last (printed (retargetAnimation fbxAsset vrm options)) = Some error_failed_to_retarget).
Proof.
  intros Hfind Hv%not_number_false Hm%not_number_false Hin He Ht.
  destruct (retarget_tracks_throws (retarget_env fbxAsset vrm options) (clip_tracks clip)
              initial_state) as (st & ts' & Hthrow); [by exists track|].
  unfold retargetAnimation. rewrite Hfind, Hv, Hm, Hthrow. cbn.
  split; [done|]. intros ->. by rewrite last_snoc.
Qed.

Lemma track_without_keyframes_fails_the_call_witness :
  returned (retargetAnimation sample_fbx_no_keyframes (sample_vrm "1") default_options) = None
  ∧ last (printed (retargetAnimation sample_fbx_no_keyframes (sample_vrm "1") default_options))
    = Some error_failed_to_retarget.
Proof.
  destruct (track_without_keyframes_fails_the_call sample_fbx_no_keyframes (sample_vrm "1")
              default_options 0 (sample_clip [hips_quaternion; spine_no_keyframes])
              spine_no_keyframes) as [Hret Hlast].
  - reflexivity.
  - intros [H|[H|H]]; vm_compute in H; discriminate H.
  - intros [H|[H|H]]; vm_compute in H; discriminate H.
  - apply elem_of_cons. right. by left.
  - vm_compute. reflexivity.
  - reflexivity.
  - split; [exact Hret | by apply Hlast].
Defined.

(** ** The console *)

Lemma retargetAnimation_silent fbxAsset vrm options :
  option_logWarnings options = false →
  printed (retargetAnimation fbxAsset vrm options) = [].
Proof.
  intros Hlog. unfold retargetAnimation. rewrite Hlog.
  destruct (findByName _ _) as [[n clip]|]; [|done].
  destruct (not_number _ || not_number _); [done|].
  destruct (retarget_tracks _ _ _) as [r ts'] eqn:Hloop.
  apply retarget_tracks_silent in Hloop; [|done].
  destruct r; cbn in *; by rewrite Hloop.
Qed.

(** X4.  With [logWarnings] off a call prints nothing, whatever it is given
    and however it ends. *)
Theorem silent_without_logWarnings fbxAsset vrm options :
  option_logWarnings options = false →
  printed (retargetAnimation fbxAsset vrm options) = [].
Proof. apply retargetAnimation_silent. Qed.

Lemma silent_without_logWarnings_witness :
  printed (retargetAnimation sample_fbx_no_keyframes (sample_vrm "1") silent_options) = [].
Proof. by apply (silent_without_logWarnings _ _ silent_options). Defined.

(** ** The tracks of the clip returned *)

Lemma length_convert_rotation_values meta0 values :
  length (convert_rotation_values meta0 values) = length values.
Proof. apply length_imap. Qed.

Lemma length_convert_position_values meta0 s values :
  length (convert_position_values meta0 s values) = length values.
Proof. apply length_imap. Qed.

Lemma length_retarget_rotation_values P Rinv values :
  length (retarget_rotation_values P Rinv values) = length values.
Proof.
  rewrite retarget_rotation_values_map. by apply (length_keyframes_map _ _ (length values)).
Qed.

Lemma retarget_track_made env st track st' track' :
  retarget_track env st track = (Normal st', track') →
  ∃ made, tracks st' = tracks st ++ made
          ∧ Forall2 (retargeted_from env) (if emits env track then [track] else []) made.
Proof.
  intros Hstep. unfold emits.
  destruct (vrmNode env track) as [target|] eqn:Hnode.
  - rewrite bool_decide_eq_true_2 by eauto. cbn [andb].
    destruct (track_class track) eqn:Hclass; cbn [is_retargeted_class].
    1: rewrite (retarget_track_rotation _ _ _ _ Hnode Hclass) in Hstep.
    2: rewrite (retarget_track_position _ _ _ _ Hnode Hclass) in Hstep.
    1,2: cbv zeta in Hstep; injection Hstep as Hpush _;
      apply push_track_Normal in Hpush as [Htimes ->]; cbn [tracks];
      eexists; split; [reflexivity|]; repeat constructor; cbn;
      rewrite ?Hclass, ?length_convert_rotation_values, ?length_retarget_rotation_values,
        ?length_convert_position_values; try done; by exists target.
    all: rewrite (retarget_track_other _ _ _ target) in Hstep
        by (try done; by rewrite Hclass);
      injection Hstep as <- _; exists []; by rewrite app_nil_r.
  - rewrite bool_decide_eq_false_2 by (by intros [? ?]). cbn [andb].
    rewrite retarget_track_dropped in Hstep by done.
    injection Hstep as <- _. exists []. by rewrite app_nil_r.
Qed.

Lemma retarget_tracks_made env : ∀ ts st st' ts',
  retarget_tracks env st ts = (Normal st', ts') →
  ∃ made, tracks st' = tracks st ++ made
          ∧ Forall2 (retargeted_from env) (List.filter (emits env) ts) made.
Proof.
  induction ts as [|t ts IH]; intros st st' ts' Hloop.
  - injection Hloop as <- _. exists []. by rewrite app_nil_r.
  - cbn [retarget_tracks] in Hloop.
    destruct (retarget_track env st t) as [[s1|s1] t1] eqn:Hstep; [|done].
    destruct (retarget_tracks env s1 ts) as [r rest'] eqn:Hrest.
    injection Hloop as -> _.
    destruct (retarget_track_made _ _ _ _ _ Hstep) as (made1 & Hs1 & H1).
    destruct (IH _ _ _ Hrest) as (made & Hst' & Hmade).
    exists (made1 ++ made). split; [by rewrite Hst', Hs1, app_assoc|].
    cbn [List.filter]. destruct (emits env t).
    + change (t :: List.filter (emits env) ts) with ([t] ++ List.filter (emits env) ts).
      by apply Forall2_app.
    + apply Forall2_nil_inv_l in H1 as ->. done.
Qed.

(** X5.  The clip returned has one track for each track of the source that
    the loop retargets (the bone of its joint is mapped to a joint of the
    avatar, and it is a rotation or a position track), in the order of the
    source and no other.  Each has the class and the keyframe times of its
    source track, as many values, and the name of the joint of the avatar
    followed by a dot and the property of the source track. *)
Theorem returned_tracks_follow_the_source fbxAsset vrm options out n clip :
  findByName (animations fbxAsset) (option_animationClipName options) = Some (n, clip) →
  returned (retargetAnimation fbxAsset vrm options) = Some out →
  Forall2 (retargeted_from (retarget_env fbxAsset vrm options))
          (List.filter (emits (retarget_env fbxAsset vrm options)) (clip_tracks clip))
          (clip_tracks out)
  ∧ length (clip_tracks out) ≤ length (clip_tracks clip).
Proof.
  intros Hfind Hret.
  destruct (retargetAnimation_returned _ _ _ _ Hret)
    as (n' & clip' & st & ts' & Hfind' & _ & _ & Hloop & -> & _).
  destruct (findByName_injective _ _ _ _ _ _ Hfind Hfind') as [-> ->].
  destruct (retarget_tracks_made _ _ _ _ _ Hloop) as (made & Htracks & Hmade).
  rewrite clip_tracks_new, Htracks. cbn [tracks initial_state app].
  split; [done|]. rewrite <- (Forall2_length _ _ _ Hmade). apply List.filter_length_le.
Qed.

Lemma returned_tracks_follow_the_source_witness :
  ∃ out,
    returned (retargetAnimation sample_fbx_opacity (sample_vrm "1") default_options) = Some out
    ∧ Forall2 (retargeted_from (retarget_env sample_fbx_opacity (sample_vrm "1")
                                  default_options))
              [hips_quaternion] (clip_tracks out).
Proof.
  assert (∃ out, returned (retargetAnimation sample_fbx_opacity (sample_vrm "1")
                             default_options) = Some out) as [out Hout] by returns_some.
  exists out. split; [exact Hout|].
  apply (returned_tracks_follow_the_source sample_fbx_opacity (sample_vrm "1")
           default_options out 0 (sample_clip [hips_quaternion; hips_opacity]) eq_refl Hout).
Defined.

Lemma is_negative_Math_max a b : is_negative a = false → is_negative (Math_max a b) = false.
Proof.
  destruct a as [p|], b as [q|]; simpl; try done.
  case_decide as Hle; simpl; [|done].
  rewrite !bool_decide_eq_false. intros Hp Hq. apply Hp.
  by apply (Qcle_lt_trans _ q).
Qed.

Lemma is_negative_resetDuration ts : is_negative (resetDuration ts) = false.
Proof.
  unfold resetDuration.
  assert (is_negative (of_Z 0) = false) as H0 by compute_done.
  revert H0. generalize (of_Z 0). induction ts as [|t ts IH]; intros d Hd; [done|].
  cbn [foldl]. apply IH. by apply is_negative_Math_max.
Qed.

(** X6.  The clip returned never has a negative duration: a source clip
    with a negative duration gets the largest last keyframe time of the
    tracks returned, or zero, in its place. *)
Theorem returned_duration_is_not_negative fbxAsset vrm options out :
  returned (retargetAnimation fbxAsset vrm options) = Some out →
  is_negative (clip_duration out) = false
  ∧ ∀ n clip,
      findByName (animations fbxAsset) (option_animationClipName options) = Some (n, clip) →
      is_negative (clip_duration clip) = true →
      clip_duration out = resetDuration (clip_tracks out).
Proof.
  intros Hret.
  destruct (retargetAnimation_returned _ _ _ _ Hret)
    as (n' & clip' & st & ts' & Hfind' & _ & _ & _ & -> & _).
  split.
  - unfold new_AnimationClip. cbn [clip_duration].
    destruct (is_negative (clip_duration clip')) eqn:Hneg; [|done].
    apply is_negative_resetDuration.
  - intros n clip Hfind Hneg.
    destruct (findByName_injective _ _ _ _ _ _ Hfind Hfind') as [-> ->].
    unfold new_AnimationClip. cbn. by rewrite Hneg.
Qed.

Lemma returned_duration_is_not_negative_witness :
  ∃ out,
    returned (retargetAnimation sample_fbx_negative_duration (sample_vrm "1") default_options)
    = Some out
    ∧ is_negative (clip_duration out) = false
    ∧ clip_duration out = resetDuration (clip_tracks out).
Proof.
  assert (∃ out, returned (retargetAnimation sample_fbx_negative_duration (sample_vrm "1")
                             default_options) = Some out) as [out Hout] by returns_some.
  exists out. split; [exact Hout|].
  destruct (returned_duration_is_not_negative sample_fbx_negative_duration (sample_vrm "1")
              default_options out Hout) as [Hneg Hreset].
  split; [exact Hneg|].
  by apply (Hreset 0 (mkClip "mixamo.com" (of_Z (-1)) [hips_quaternion; hips_position])).
Defined.

(** ** What a call changes of the asset *)

Lemma Group_eta g : mkGroup (group_object g) (group_parent g) (animations g) = g.
Proof. by destruct g. Qed.

Lemma AnimationClip_eta c : mkClip (clip_name c) (clip_duration c) (clip_tracks c) = c.
Proof. by destruct c. Qed.

Lemma asset_after_frame fbxAsset vrm options :
  let after := fbxAsset_after (retargetAnimation fbxAsset vrm options) in
  group_object after = group_object fbxAsset
  ∧ group_parent after = group_parent fbxAsset
  ∧ (findByName (animations fbxAsset) (option_animationClipName options) = None →
     animations after = animations fbxAsset)
  ∧ ∀ n clip,
      findByName (animations fbxAsset) (option_animationClipName options) = Some (n, clip) →
      ∃ ts', animations after
             = <[n := mkClip (clip_name clip) (clip_duration clip) ts']> (animations fbxAsset)
             ∧ Forall2 same_but_rotation_values (clip_tracks clip) ts'.
Proof.
  cbv zeta. unfold retargetAnimation.
  destruct (findByName _ _) as [[n clip]|] eqn:Hfind; [|by repeat split].
  pose proof (findByName_lookup _ _ _ _ Hfind) as Hn.
  destruct (not_number _ || not_number _).
  - split; [done|]. split; [done|]. split; [done|].
    intros ? ? [= <- <-]. exists (clip_tracks clip).
    rewrite AnimationClip_eta, list_insert_id by done.
    split; [done | apply same_but_rotation_values_refl].
  - destruct (retarget_tracks _ _ _) as [r ts'] eqn:Hloop.
    apply retarget_tracks_source in Hloop.
    destruct r; (split; [done|]); (split; [done|]); (split; [done|]);
      intros ? ? [= <- <-]; by exists ts'.
Qed.

(** X7.  A call leaves the scene graph of the asset and every clip but
    the one it retargets as they are; in that clip it keeps the name, the
    duration, the number and the order of the tracks, and for each track
    its class, its name and its keyframe times; the values of a track that
    is not a rotation track are kept too. *)
Theorem call_changes_only_rotation_values fbxAsset vrm options n clip :
  findByName (animations fbxAsset) (option_animationClipName options) = Some (n, clip) →
  let after := fbxAsset_after (retargetAnimation fbxAsset vrm options) in
  group_object after = group_object fbxAsset
  ∧ group_parent after = group_parent fbxAsset
  ∧ ∃ ts', animations after
           = <[n := mkClip (clip_name clip) (clip_duration clip) ts']> (animations fbxAsset)
           ∧ Forall2 same_but_rotation_values (clip_tracks clip) ts'.
Proof.
  intros Hfind.
  destruct (asset_after_frame fbxAsset vrm options) as (Ho & Hp & _ & Hclip).
  cbv zeta. split; [done|]. split; [done|]. by apply Hclip.
Qed.

Lemma call_changes_only_rotation_values_witness :
  ∃ ts', animations (fbxAsset_after (retargetAnimation sample_fbx (sample_vrm "1")
                                       default_options))
         = [mkClip "mixamo.com" (of_Z 1) ts']
    ∧ Forall2 same_but_rotation_values [hips_quaternion; hips_position; spine_quaternion] ts'.
Proof.
  destruct (call_changes_only_rotation_values sample_fbx (sample_vrm "1") default_options 0
              (sample_clip [hips_quaternion; hips_position; spine_quaternion]) eq_refl)
    as (_ & _ & ts' & Hafter & Hsame).
  exists ts'. split; [exact Hafter | exact Hsame].
Defined.

Lemma same_but_rotation_values_eq : ∀ ts ts',
  Forall2 same_but_rotation_values ts ts' →
  (∀ t, t ∈ ts → track_class t ≠ QuaternionKeyframeTrack) →
  ts' = ts.
Proof.
  induction 1 as [|t t' ts ts' (_ & _ & _ & Heq) _ IH]; intros Hclass; [done|].
  rewrite Heq by (apply Hclass; by left). f_equal. apply IH.
  intros t0 ?. apply Hclass. by right.
Qed.

(** X8.  A call on a clip without rotation tracks leaves the whole asset
    as it was, so that a second call with the same asset does what the
    first did. *)
Theorem clip_without_rotation_tracks_is_kept fbxAsset vrm options n clip :
  findByName (animations fbxAsset) (option_animationClipName options) = Some (n, clip) →
  (∀ track, track ∈ clip_tracks clip → track_class track ≠ QuaternionKeyframeTrack) →
  fbxAsset_after (retargetAnimation fbxAsset vrm options) = fbxAsset
  ∧ retargetAnimation (fbxAsset_after (retargetAnimation fbxAsset vrm options)) vrm options
    = retargetAnimation fbxAsset vrm options.
Proof.
  intros Hfind Hclass.
  assert (fbxAsset_after (retargetAnimation fbxAsset vrm options) = fbxAsset) as Hkept.
  { destruct (asset_after_frame fbxAsset vrm options) as (Ho & Hp & _ & Hclip).
    cbv zeta in *. destruct (Hclip n clip Hfind) as (ts' & Hafter & Hsame).
    rewrite (same_but_rotation_values_eq _ _ Hsame Hclass) in Hafter.
    rewrite AnimationClip_eta, list_insert_id in Hafter
      by (by eapply findByName_lookup).
    rewrite <- (Group_eta (fbxAsset_after _)), Ho, Hp, Hafter. apply Group_eta. }
  by rewrite Hkept.
Qed.

Lemma clip_without_rotation_tracks_is_kept_witness :
  fbxAsset_after (retargetAnimation sample_fbx_armature (sample_vrm "0") default_options)
  = sample_fbx_armature.
Proof.
  apply (clip_without_rotation_tracks_is_kept sample_fbx_armature (sample_vrm "0")
           default_options 0 (sample_clip [hips_position]) eq_refl).
  intros track [->|[]%elem_of_nil]%elem_of_cons. discriminate.
Defined.

(** ** The algebra of the rotations *)

Lemma Qc_of_Z_1 : Qc_of_Z 1 = 1%Qc.
Proof. by apply Qc_is_canon. Qed.

Lemma identity_eq : identity = mkQuaternion (Num 0%Qc) (Num 0%Qc) (Num 0%Qc) (Num 1%Qc).
Proof. unfold identity, of_Z. by rewrite Qc_of_Z_0, Qc_of_Z_1. Qed.

Lemma finite_quaternion_inv q :
  finite_quaternion q → ∃ x y z w, q = mkQuaternion (Num x) (Num y) (Num z) (Num w).
Proof.
  destruct q as [a b c d]. unfold finite_quaternion, finite. cbn.
  intros ([x ->] & [y ->] & [z ->] & [w ->]). by exists x, y, z, w.
Qed.


(** Solves an equation between quaternions of numbers that are not [NaN]. *)
Ltac quaternion_ring :=
  unfold rotate, multiplyQuaternions, invert, conjugate, negate_x_z, half_turn_y; cbn;
  f_equal; f_equal; ring.

Lemma multiplyQuaternions_identity_l q :
  finite_quaternion q → multiplyQuaternions identity q = q.
Proof.
  intros (x & y & z & w & ->)%finite_quaternion_inv. rewrite identity_eq. quaternion_ring.
Qed.

Lemma multiplyQuaternions_identity_r q :
  finite_quaternion q → multiplyQuaternions q identity = q.
Proof.
  intros (x & y & z & w & ->)%finite_quaternion_inv. rewrite identity_eq. quaternion_ring.
Qed.

Lemma invert_identity : invert identity = identity.
Proof. rewrite identity_eq. quaternion_ring. Qed.





(** X23.  In a call that returns a clip, a rotation track of the source
    clip whose bone is mapped to a joint of the avatar, and whose own
    joint [node] exists in the source rig below a [parent], gives a
    rotation track of the returned clip with the same keyframe times and
    as many values.  Before the correction for the coordinate convention,
    each of its keyframes is [P * q * R⁻¹]: [q] the keyframe of the source,
    [R] the rest rotation of [node] in the world and [P] that of [parent]
    ([R⁻¹] as three.js inverts a rotation, see [invert]). *)
Theorem rotation_keyframes_in_rest_frame
    fbxAsset vrm options out n clip j track target node parent :
  findByName (animations fbxAsset) (option_animationClipName options) = Some (n, clip) →
  returned (retargetAnimation fbxAsset vrm options) = Some out →
  clip_tracks clip !! j = Some track →
  track_class track = QuaternionKeyframeTrack →
  vrmNode (retarget_env fbxAsset vrm options) track = Some target →
  getObjectByName fbxAsset (mixamoRigName track) = Some (node, Some parent) →
  ∃ i values,
    clip_tracks out !! i =
      Some (mkTrack QuaternionKeyframeTrack (output_name target track) (track_times track)
              (convert_rotation_values (is_meta0 vrm) values))
    ∧ length (convert_rotation_values (is_meta0 vrm) values) = length (track_values track)
    ∧ length values = length (track_values track)
    ∧ ∀ k, 4 * k + 4 ≤ length (track_values track) →
        keyframe k values =
          multiplyQuaternions
            (multiplyQuaternions (getWorldQuaternion parent) (keyframe k (track_values track)))
            (invert (getWorldQuaternion node)).
Proof.
  intros Hfind Hret Hj Hclass Hnode Hrig.
  destruct (rotation_track_emitted _ _ _ _ _ _ _ _ _ Hfind Hret Hj Hclass Hnode)
    as (i & st & _ & Hi & _).
  unfold store_rest in Hi. cbn [env_fbxAsset retarget_env] in Hi. rewrite Hrig in Hi.
  cbn [parentRestWorldRotation restRotationInverse] in Hi.
  eexists i, _. split; [exact Hi|].
  unfold convert_rotation_values. rewrite length_imap.
  rewrite (length_keyframes_map _ _ (length (track_values track))) by done.
  repeat split. intros k Hk. by apply keyframe_keyframes_map.
Qed.

Lemma rotation_keyframes_in_rest_frame_witness :
  ∃ out i values,
    returned (retargetAnimation sample_fbx (sample_vrm "1") default_options) = Some out
    ∧ clip_tracks out !! i =
        Some (mkTrack QuaternionKeyframeTrack "Normalized_Hips.quaternion"
                [of_Z 0; of_Z 1] (convert_rotation_values false values))
    ∧ keyframe 1 values =
        multiplyQuaternions
          (multiplyQuaternions (getWorldQuaternion sample_root)
                               (quat (1 # 2) (1 # 2) (1 # 2) (1 # 2)))
          (invert (getWorldQuaternion sample_hips))
    ∧ keyframe 1 values = quat (1 # 50) (7 # 50) (49 # 50) (7 # 50).
Proof.
  assert (∃ out, returned (retargetAnimation sample_fbx (sample_vrm "1") default_options)
                 = Some out) as [out Hout] by returns_some.
  destruct (rotation_keyframes_in_rest_frame sample_fbx (sample_vrm "1") default_options
              out 0 (sample_clip [hips_quaternion; hips_position; spine_quaternion])
              0 hips_quaternion (vrm_node "Normalized_Hips" 135) sample_hips sample_root)
    as (i & values & Hi & _ & _ & Hk);
    [reflexivity | exact Hout | reflexivity | reflexivity
    | vm_compute; reflexivity | vm_compute; reflexivity |].
  exists out, i, values. split; [exact Hout|]. split; [exact Hi|].
  assert (4 * 1 + 4 ≤ length (track_values hips_quaternion)) as Hlen by (vm_compute; lia).
  split; [exact (Hk 1 Hlen)|]. rewrite (Hk 1 Hlen). compute_done.
Defined.





(** X11.  The correction for the older coordinate convention is the turn
    of a rotation by half a turn about the y axis, [Y * q * Y⁻¹], on every
    keyframe whose components are numbers; applied twice it gives back the
    values it was given. *)
Theorem old_convention_is_half_turn_about_y k values :
  (finite_quaternion (keyframe k values) →
   keyframe k (convert_rotation_values true values) =
     multiplyQuaternions (multiplyQuaternions half_turn_y (keyframe k values))
                         (invert half_turn_y))
  ∧ convert_rotation_values true (convert_rotation_values true values) = values.
Proof.
  split.
  - intros (x & y & z & w & Hq)%finite_quaternion_inv.
    rewrite keyframe_convert_rotation_values, Hq. quaternion_ring.
  - apply list_eq. intros i. unfold convert_rotation_values. rewrite !list_lookup_imap.
    destruct (values !! i) as [[p|]|]; cbn; [|by destruct (bool_decide _)|done].
    destruct (bool_decide _); cbn; [|done]. do 2 f_equal. ring.
Qed.

Lemma old_convention_is_half_turn_about_y_witness :
  keyframe 1 (convert_rotation_values true (track_values hips_quaternion)) =
    multiplyQuaternions
      (multiplyQuaternions half_turn_y (quat (1 # 2) (1 # 2) (1 # 2) (1 # 2)))
      (invert half_turn_y).
Proof.
  apply (proj1 (old_convention_is_half_turn_about_y 1 (track_values hips_quaternion))).
  repeat split; by eexists.
Defined.

(** ** Retargeting onto the same rig *)

Lemma convert_rotation_values_modern values : convert_rotation_values false values = values.
Proof.
  apply list_eq. intros i. unfold convert_rotation_values. rewrite list_lookup_imap.
  by destruct (values !! i).
Qed.

Lemma keyframes_map_identity : ∀ m values,
  length values = 4 * m → Forall finite values →
  keyframes_map identity identity values = values.
Proof.
  induction m as [|m IH]; intros values Hlen Hfin.
  - by destruct values.
  - destruct values as [|x [|y [|z [|w rest]]]]; cbn [length] in Hlen; try lia.
    apply Forall_cons in Hfin as [Hx Hfin]. apply Forall_cons in Hfin as [Hy Hfin].
    apply Forall_cons in Hfin as [Hz Hfin]. apply Forall_cons in Hfin as [Hw Hfin].
    cbn [keyframes_map]. cbv zeta. unfold rotate.
    rewrite multiplyQuaternions_identity_l, multiplyQuaternions_identity_r by done.
    cbn [qx qy qz qw]. rewrite IH; [done | lia | done].
Qed.

(** X12.  Retargeting onto a rig at rest in the same pose changes no
    rotation: when the joint of a rotation track and its parent both have
    the identity as rest rotation in the world, the values of the track
    are numbers, four to a keyframe, and the avatar has the modern
    convention, the track returned has the values of the source track. *)
Theorem identity_rest_pose_keeps_rotations
    fbxAsset vrm options out n clip j track target node parent m :
  findByName (animations fbxAsset) (option_animationClipName options) = Some (n, clip) →
  returned (retargetAnimation fbxAsset vrm options) = Some out →
  clip_tracks clip !! j = Some track →
  track_class track = QuaternionKeyframeTrack →
  vrmNode (retarget_env fbxAsset vrm options) track = Some target →
  getObjectByName fbxAsset (mixamoRigName track) = Some (node, Some parent) →
  getWorldQuaternion node = identity →
  getWorldQuaternion parent = identity →
  is_meta0 vrm = false →
  length (track_values track) = 4 * m →
  Forall finite (track_values track) →
  ∃ i, clip_tracks out !! i =
         Some (mkTrack QuaternionKeyframeTrack (output_name target track)
                 (track_times track) (track_values track)).
Proof.
  intros Hfind Hret Hj Hclass Hnode Hrig HR HP Hmeta Hlen Hfin.
  destruct (rotation_track_emitted _ _ _ _ _ _ _ _ _ Hfind Hret Hj Hclass Hnode)
    as (i & st & _ & Hi & _).
  unfold store_rest in Hi. cbn [env_fbxAsset retarget_env] in Hi. rewrite Hrig in Hi.
  cbn [parentRestWorldRotation restRotationInverse] in Hi.
  rewrite HR, HP, Hmeta, invert_identity, convert_rotation_values_modern in Hi.
  rewrite (keyframes_map_identity m) in Hi by done. by exists i.
Qed.

Lemma identity_rest_pose_keeps_rotations_witness :
  ∃ out i,
    returned (retargetAnimation sample_fbx_at_rest (sample_vrm "1") default_options) = Some out
    ∧ clip_tracks out !! i =
        Some (mkTrack QuaternionKeyframeTrack "Normalized_Hips.quaternion"
                [of_Z 0; of_Z 1] (track_values hips_quaternion)).
Proof.
  assert (∃ out, returned (retargetAnimation sample_fbx_at_rest (sample_vrm "1")
                             default_options) = Some out) as [out Hout] by returns_some.
  destruct (identity_rest_pose_keeps_rotations sample_fbx_at_rest (sample_vrm "1")
              default_options out 0 (sample_clip [hips_quaternion]) 0 hips_quaternion
              (vrm_node "Normalized_Hips" 135) sample_hips_at_rest sample_root_at_rest 2)
    as (i & Hi);
    [reflexivity | exact Hout | reflexivity | reflexivity | vm_compute; reflexivity
    | vm_compute; reflexivity | reflexivity | reflexivity | vm_compute; reflexivity
    | reflexivity | repeat constructor; by eexists |].
  exists out, i. split; [exact Hout | exact Hi].
Defined.

(** ** Position values *)

Lemma nmul_1_r a : finite a → nmul a (Num 1%Qc) = a.
Proof. intros [q ->]. cbn. f_equal. ring. Qed.

Lemma convert_position_values_1 values :
  Forall finite values → convert_position_values false (Num 1%Qc) values = values.
Proof.
  intros Hfin. apply list_eq. intros i. unfold convert_position_values.
  rewrite list_lookup_imap. destruct (values !! i) as [v|] eqn:Hi; [|done]. cbn -[nmul].
  f_equal. apply nmul_1_r. by eapply Forall_lookup_1.
Qed.

(** X14.  Retargeting onto an avatar of the same height changes no
    position: when the hip height of the avatar is the local height of the
    hips of the source, the avatar has the modern convention and the
    values of a position track are numbers, the track returned has the
    values of the source track. *)
Theorem same_hip_height_keeps_positions
    fbxAsset vrm options out n clip j track target h :
  findByName (animations fbxAsset) (option_animationClipName options) = Some (n, clip) →
  returned (retargetAnimation fbxAsset vrm options) = Some out →
  clip_tracks clip !! j = Some track →
  track_class track = VectorKeyframeTrack →
  vrmNode (retarget_env fbxAsset vrm options) track = Some target →
  motionHipsHeight fbxAsset = Some (Num h) →
  vrmHipsHeight vrm = Num h →
  is_meta0 vrm = false →
  Forall finite (track_values track) →
  ∃ i, clip_tracks out !! i =
         Some (mkTrack VectorKeyframeTrack (output_name target track)
                 (track_times track) (track_values track)).
Proof.
  intros Hfind Hret Hj Hclass Hnode Hsource Htarget Hmeta Hfin.
  destruct (position_track_emitted _ _ _ _ _ _ _ _ _ Hfind Hret Hj Hclass Hnode) as (i & Hi).
  destruct (retargetAnimation_returned _ _ _ _ Hret) as (_ & _ & _ & _ & _ & _ & Hm & _).
  assert (hipsPositionScale fbxAsset vrm = Num 1%Qc) as Hscale.
  { unfold hipsPositionScale. rewrite Hsource, Htarget. cbn.
    rewrite Hsource in Hm. cbn in Hm. apply bool_decide_eq_false in Hm.
    case_decide; [done|]. f_equal. by field. }
  rewrite Hscale, Hmeta, convert_position_values_1 in Hi by done. by exists i.
Qed.

Lemma same_hip_height_keeps_positions_witness :
  ∃ out i,
    returned (retargetAnimation sample_fbx (sample_vrm_at 100 10 "1") default_options)
    = Some out
    ∧ clip_tracks out !! i =
        Some (mkTrack VectorKeyframeTrack "Normalized_Hips.position" [of_Z 0]
                [of_Z 0; of_Z 10; of_Z 0]).
Proof.
  assert (∃ out, returned (retargetAnimation sample_fbx (sample_vrm_at 100 10 "1")
                             default_options) = Some out) as [out Hout] by returns_some.
  destruct (same_hip_height_keeps_positions sample_fbx (sample_vrm_at 100 10 "1")
              default_options out 0
              (sample_clip [hips_quaternion; hips_position; spine_quaternion])
              1 hips_position (vrm_node "Normalized_Hips" 100) (Qc_of_Z 90))
    as (i & Hi);
    [reflexivity | exact Hout | reflexivity | reflexivity | vm_compute; reflexivity
    | vm_compute; reflexivity | compute_done | reflexivity
    | repeat constructor; by eexists |].
  exists out, i. split; [exact Hout | exact Hi].
Defined.

(** ** Numbers that are not numbers *)

Lemma nmul_NaN_r a : nmul a NaN = NaN.
Proof. by destruct a. Qed.
Lemma nadd_NaN_r a : nadd a NaN = NaN.
Proof. by destruct a. Qed.
Lemma nsub_NaN_r a : nsub a NaN = NaN.
Proof. by destruct a. Qed.
Lemma nmul_NaN_l a : nmul NaN a = NaN.
Proof. done. Qed.
Lemma nadd_NaN_l a : nadd NaN a = NaN.
Proof. done. Qed.
Lemma nsub_NaN_l a : nsub NaN a = NaN.
Proof. done. Qed.

Create Rewrite HintDb NaN.
#[local] Hint Rewrite nmul_NaN_r nadd_NaN_r nsub_NaN_r nmul_NaN_l nadd_NaN_l nsub_NaN_l : NaN.

(** Closes an equation between products of quaternions when a component
    that occurs in every component of both sides is [NaN]. *)
Ltac all_NaN :=
  unfold multiplyQuaternions; cbn [qx qy qz qw]; autorewrite with NaN; reflexivity.

Lemma multiplyQuaternions_NaN_w a b :
  qw b = NaN → multiplyQuaternions a b = mkQuaternion NaN NaN NaN NaN.
Proof. destruct b as [x y z w]. cbn. intros ->. all_NaN. Qed.

Lemma multiplyQuaternions_NaN_l b :
  multiplyQuaternions (mkQuaternion NaN NaN NaN NaN) b = mkQuaternion NaN NaN NaN NaN.
Proof. done. Qed.

Lemma keyframes_map_app P Rinv : ∀ m body tail,
  length body = 4 * m →
  keyframes_map P Rinv (body ++ tail) = keyframes_map P Rinv body ++ keyframes_map P Rinv tail.
Proof.
  induction m as [|m IH]; intros body tail Hlen.
  - by destruct body.
  - destruct body as [|x [|y [|z [|w rest]]]]; cbn [length] in Hlen; try lia.
    cbn [app keyframes_map]. cbv zeta. rewrite IH by lia. done.
Qed.

(** X15.  A rotation track whose values do not come four to a keyframe
    keeps its length; its complete keyframes are rotated as in a track
    without the values left over, and the one, two or three values left
    over become [NaN]. *)
Theorem incomplete_keyframe_becomes_NaN P Rinv body tail m :
  length body = 4 * m →
  0 < length tail < 4 →
  retarget_rotation_values P Rinv (body ++ tail)
  = retarget_rotation_values P Rinv body ++ replicate (length tail) NaN.
Proof.
  intros Hbody Htail. rewrite !retarget_rotation_values_map, (keyframes_map_app _ _ m) by done.
  f_equal.
  assert (rotate P Rinv (fromArray tail) = mkQuaternion NaN NaN NaN NaN) as Hrot.
  { unfold rotate. rewrite (multiplyQuaternions_NaN_w P); [done|].
    destruct tail as [|a [|b [|c [|d tail]]]]; cbn [length] in Htail; try lia; done. }
  destruct tail as [|a [|b [|c [|d tail]]]]; cbn [length] in Htail; try lia;
    cbn [keyframes_map]; by rewrite Hrot.
Qed.

Lemma incomplete_keyframe_becomes_NaN_witness :
  retarget_rotation_values identity identity
    ([of_Z 0; of_Z 0; of_Z 0; of_Z 1] ++ [of_Z 0; of_Z 1])
  = retarget_rotation_values identity identity [of_Z 0; of_Z 0; of_Z 0; of_Z 1]
    ++ replicate 2 NaN.
Proof.
  apply (incomplete_keyframe_becomes_NaN identity identity
           [of_Z 0; of_Z 0; of_Z 0; of_Z 1] [of_Z 0; of_Z 1] 1); [reflexivity|].
  cbn. lia.
Defined.

(** ** The names of the tracks *)

Lemma split_dot_free s : dot_free s = true → split "." s = [s].
Proof.
  induction s as [|c s IH]; [done|]. cbn [dot_free split].
  intros [Hc Hs]%andb_true_iff. apply negb_true_iff, bool_decide_eq_false in Hc.
  case_decide; [done|]. by rewrite IH.
Qed.

Lemma split_dot_app s rest :
  dot_free s = true → split "." (s ++ "." ++ rest) = s :: split "." rest.
Proof.
  induction s as [|c s IH]; [done|]. cbn [dot_free].
  intros [Hc Hs]%andb_true_iff. apply negb_true_iff, bool_decide_eq_false in Hc.
  change (String c s +:+ "." +:+ rest) with (String c (s +:+ "." +:+ rest)).
  cbn [split]. case_decide; [done|]. by rewrite IH.
Qed.

(** X17.  A track named [rig.property], neither part with a dot in it, is
    looked up in the bone map and in the source rig under [rig], and the
    track made for it on a joint of the avatar is named by the name of
    that joint, a dot and [property]. *)
Theorem track_name_gives_joint_and_property
    (track : KeyframeTrack) (target : Object3D) (rig property : string) :
  track_name track = rig +:+ "." +:+ property →
  dot_free rig = true →
  dot_free property = true →
  mixamoRigName track = rig
  ∧ propertyName track = Some property
  ∧ output_name target track = obj_name target +:+ "." +:+ property.
Proof.
  intros Hname Hrig Hprop. unfold output_name, mixamoRigName, propertyName.
  by rewrite Hname, split_dot_app, split_dot_free.
Qed.

Lemma track_name_gives_joint_and_property_witness :
  mixamoRigName hips_position = "mixamorigHips"
  ∧ propertyName hips_position = Some "position"
  ∧ output_name (vrm_node "Normalized_Hips" 135) hips_position = "Normalized_Hips.position".
Proof.
  by apply (track_name_gives_joint_and_property hips_position
              (vrm_node "Normalized_Hips" 135) "mixamorigHips" "position").
Defined.

(** X18.  The names that are not of that form: a track whose name has no
    dot is looked up under its whole name, and the track made for it has
    the property 'undefined'; of a name with more than one dot only the
    part between the first and the second is kept as the property. *)
Theorem track_name_edge_cases (track : KeyframeTrack) (target : Object3D) :
  (dot_free (track_name track) = true →
   mixamoRigName track = track_name track
   ∧ output_name target track = obj_name target +:+ ".undefined")
  ∧ (∀ rig property rest : string,
       track_name track = rig +:+ "." +:+ property +:+ "." +:+ rest →
       dot_free rig = true → dot_free property = true →
       mixamoRigName track = rig
       ∧ output_name target track = obj_name target +:+ "." +:+ property).
Proof.
  unfold output_name, mixamoRigName, propertyName. split.
  - intros Hname. by rewrite split_dot_free.
  - intros rig property rest Hname Hrig Hprop.
    by rewrite Hname, split_dot_app, split_dot_app.
Qed.

Lemma track_name_edge_cases_witness :
  output_name (vrm_node "Normalized_Hips" 135)
    (mkTrack VectorKeyframeTrack "mixamorigHips" [of_Z 0] [])
  = "Normalized_Hips.undefined"
  ∧ output_name (vrm_node "Normalized_Hips" 135) hips_opacity = "Normalized_Hips.material".
Proof.
  split.
  - by apply (proj1 (track_name_edge_cases
                       (mkTrack VectorKeyframeTrack "mixamorigHips" [of_Z 0] [])
                       (vrm_node "Normalized_Hips" 135))).
  - by apply (proj2 (track_name_edge_cases hips_opacity (vrm_node "Normalized_Hips" 135))
                "mixamorigHips" "material" "opacity").
Defined.

(** ** The warnings *)

Lemma warning_Some env track m :
  warning env track = Some m ↔
  env_logWarnings env = true ∧ target_joint_missing env track m.
Proof.
  unfold warning, target_joint_missing, vrmBoneName, get_property, bone_not_found.
  destruct (vrmNode env track) as [target|].
  { split; [done|]. by intros (_ & ? & _). }
  destruct (env_logWarnings env); cbn [andb]; [|split; [done | by intros [? _]]].
  destruct (env_boneMap env !! mixamoRigName track) as [[bone|]|] eqn:Hmap.
  - destruct bone as [|c bone]; cbn.
    + split; [done|]. by intros (_ & _ & [(? & [= <-] & ? & _) | (? & _)]).
    + split.
      * intros [= <-]. split; [done|]. split; [done|]. left. by eexists.
      * by intros (_ & _ & [(? & [= <-] & _ & ->) | (? & _)]).
  - cbn. split; [done|]. by intros (_ & _ & [(? & ? & _) | (? & _)]).
  - case_bool_decide as Hmember; cbn.
    + split.
      * intros [= <-]. split; [done|]. split; [done|]. by right.
      * by intros (_ & _ & [(? & ? & _) | (_ & _ & ->)]).
    + split; [done|]. by intros (_ & _ & [(? & ? & _) | (_ & ? & _)]).
Qed.

(** X19.  A call that returns a clip prints, with [logWarnings] on, a line
    for each track for whose joint the avatar has no joint, when the bone
    map gives for it a bone of a name that is not empty (the line names
    the bone and the joint of the source) or when it has no entry of its
    own for it and finds an inherited member under its name (the line has
    the member for the bone); and it prints nothing else. *)
Theorem warnings_name_the_missing_joints fbxAsset vrm options out n clip :
  findByName (animations fbxAsset) (option_animationClipName options) = Some (n, clip) →
  returned (retargetAnimation fbxAsset vrm options) = Some out →
  ∀ m, m ∈ printed (retargetAnimation fbxAsset vrm options) ↔
       option_logWarnings options = true
       ∧ ∃ track,
           track ∈ clip_tracks clip
           ∧ target_joint_missing (retarget_env fbxAsset vrm options) track m.
Proof.
  intros Hfind Hret m.
  destruct (retargetAnimation_returned _ _ _ _ Hret)
    as (n' & clip' & st & ts' & Hfind' & _ & _ & Hloop & _ & -> & _).
  destruct (findByName_injective _ _ _ _ _ _ Hfind Hfind') as [-> ->].
  destruct (retarget_tracks_Normal _ _ _ _ _ Hloop) as (_ & _ & -> & _).
  cbn [console initial_state app]. rewrite list_elem_of_omap. split.
  - intros (track & Hin & (Hlog & Hmiss)%warning_Some).
    split; [done|]. by exists track.
  - intros (Hlog & track & Hin & Hmiss). exists track. split; [done|].
    by apply warning_Some.
Qed.

Lemma warnings_name_the_missing_joints_witness :
  warn_bone_not_found "neck" "mixamorigNeck"
  ∈ printed (retargetAnimation sample_fbx_neck_member (sample_vrm "1") default_options)
  ∧ warn_member_not_found "constructor" "constructor"
    ∈ printed (retargetAnimation sample_fbx_neck_member (sample_vrm "1") default_options).
Proof.
  assert (∃ out, returned (retargetAnimation sample_fbx_neck_member (sample_vrm "1")
                             default_options) = Some out) as [out Hout] by returns_some.
  pose proof (warnings_name_the_missing_joints sample_fbx_neck_member (sample_vrm "1")
                default_options out 0
                (sample_clip [neck_quaternion; constructor_quaternion; hips_quaternion])
                eq_refl Hout) as Hprinted.
  split; apply Hprinted; (split; [reflexivity|]).
  - exists neck_quaternion. split; [by left|]. split; [vm_compute; reflexivity|].
    left. exists "neck". split; [vm_compute; reflexivity|]. split; [discriminate|reflexivity].
  - exists constructor_quaternion. split; [right; by left|].
    split; [vm_compute; reflexivity|].
    right. split; [vm_compute; reflexivity|]. split; [|reflexivity].
    vm_compute. by left.
Defined.

(** ** The bone map *)

(** X20.  An entry of [customBoneMap] takes the place of the entry of the
    default table for its joint, and adds one for a joint that the table
    does not have: the joint of the avatar for a track is that of the bone
    that [customBoneMap] gives to the joint of the track, and that of the
    bone of the default table when [customBoneMap] has none.  An entry
    that holds [undefined] takes the entry of the default table away. *)
Theorem custom_bone_map_takes_precedence fbxAsset vrm options h track :
  humanoid vrm = Some h →
  (∀ bone, option_customBoneMap options !! mixamoRigName track = Some (Some bone) →
     vrmNode (retarget_env fbxAsset vrm options) track = normalizedHumanBones h !! bone)
  ∧ (option_customBoneMap options !! mixamoRigName track = Some None →
     vrmNode (retarget_env fbxAsset vrm options) track = None)
  ∧ (option_customBoneMap options !! mixamoRigName track = None →
     vrmNode (retarget_env fbxAsset vrm options) track
     = mixamoVRMRigMap !! mixamoRigName track ≫= λ bone, normalizedHumanBones h !! bone).
Proof.
  intros Hh. unfold vrmNode, vrmBoneName, get_property.
  cbn [retarget_env env_vrm env_boneMap]. unfold boneMap.
  rewrite Hh. cbn [mbind option_bind]. split; [|split].
  - intros bone Hbone. by rewrite (lookup_union_Some_l _ _ _ _ Hbone).
  - intros Hbone. by rewrite (lookup_union_Some_l _ _ _ _ Hbone).
  - intros Hnone. rewrite lookup_union_r by done. rewrite lookup_fmap.
    destruct (mixamoVRMRigMap !! mixamoRigName track); [done|].
    cbn [fmap option_fmap option_map]. by case_bool_decide.
Qed.

Lemma custom_bone_map_takes_precedence_witness :
  vrmNode (retarget_env sample_fbx (sample_vrm "1") hips_to_spine_options) hips_quaternion
  = Some (vrm_node "Normalized_Spine" 150)
  ∧ vrmNode (retarget_env sample_fbx (sample_vrm "1") hips_to_spine_options) spine_quaternion
    = Some (vrm_node "Normalized_Spine" 150)
  ∧ vrmNode (retarget_env sample_fbx (sample_vrm "1") no_spine_options) spine_quaternion
    = None.
Proof.
  destruct (custom_bone_map_takes_precedence sample_fbx (sample_vrm "1")
              hips_to_spine_options _ hips_quaternion eq_refl) as (Hcustom & _ & _).
  destruct (custom_bone_map_takes_precedence sample_fbx (sample_vrm "1")
              hips_to_spine_options _ spine_quaternion eq_refl) as (_ & _ & Hdefault).
  destruct (custom_bone_map_takes_precedence sample_fbx (sample_vrm "1")
              no_spine_options _ spine_quaternion eq_refl) as (_ & Hundefined & _).
  split; [|split].
  - rewrite (Hcustom "spine"); vm_compute; reflexivity.
  - rewrite Hdefault; vm_compute; reflexivity.
  - apply Hundefined. vm_compute. reflexivity.
Defined.

(** ** The scale *)

(** X21.  In a call that returns a clip, with the scene of the avatar at a
    height that is a number, the scale is a number; it is zero when the
    hips of the avatar are at the height of its scene (every position
    value of the clip returned is then multiplied by zero), and it is not
    negative when the hips of the source are above their parent. *)
Theorem scale_is_zero_at_scene_height fbxAsset vrm options out r :
  returned (retargetAnimation fbxAsset vrm options) = Some out →
  vrmRootY vrm = Num r →
  ∃ h m s,
    vrmHipsY vrm = Some (Num h)
    ∧ motionHipsHeight fbxAsset = Some (Num m)
    ∧ hipsPositionScale fbxAsset vrm = Num s
    ∧ (h = r → s = 0%Qc)
    ∧ ((0 < m)%Qc → (0 ≤ s)%Qc).
Proof.
  intros Hret Hroot.
  destruct (retargetAnimation_returned _ _ _ _ Hret) as (_ & _ & _ & _ & _ & Hv & Hm & _).
  destruct (vrmHipsY vrm) as [[h|]|] eqn:Hh; try done.
  destruct (motionHipsHeight fbxAsset) as [[m|]|] eqn:Hs; try done.
  cbn in Hm. apply bool_decide_eq_false in Hm.
  exists h, m, (Qcabs (h - r) / m)%Qc.
  assert (m * (Qcabs (h - r) / m) = Qcabs (h - r))%Qc as Hmul by (by apply Qcmult_div_r).
  split; [done|]. split; [done|]. split; [|split].
  - unfold hipsPositionScale, vrmHipsHeight. rewrite Hh, Hs, Hroot. cbn. by case_decide.
  - intros ->. replace (r - r)%Qc with 0%Qc by ring.
    rewrite (Qcabs_pos 0%Qc) by apply Qcle_refl. field. done.
  - intros Hpos. apply (Qcmult_lt_0_le_reg_r _ _ m Hpos).
    rewrite Qcmult_0_l, Qcmult_comm, Hmul. apply Qcabs_nonneg.
Qed.

Lemma scale_is_zero_at_scene_height_witness :
  ∃ s, hipsPositionScale sample_fbx_rotation_only (sample_vrm_at 135 135 "1") = Num s
       ∧ s = 0%Qc.
Proof.
  assert (∃ out, returned (retargetAnimation sample_fbx_rotation_only
                             (sample_vrm_at 135 135 "1") default_options) = Some out)
    as [out Hout] by returns_some.
  destruct (scale_is_zero_at_scene_height sample_fbx_rotation_only (sample_vrm_at 135 135 "1")
              default_options out (Qc_of_Z 135) Hout eq_refl)
    as (h & m & s & Hh & _ & Hscale & Hzero & _).
  exists s. split; [exact Hscale|]. apply Hzero.
  vm_compute in Hh. by injection Hh as <-.
Defined.

(** ** Loading from a URL *)


